(** * HX365 retrieval engine (hx365_rag.py): model and verified properties

    The Python module is embedded function by function.  Conventions:

    - a Python [str] is a Rocq [string], one [ascii] per character (code
      points 0..255); [len] is [String.length];
    - a Python [int] is a [Z];
    - a [Dict[str, str]] conversation turn is a [gmap string string]: two
      turns are equal exactly when they hold the same keys and values, which
      is what [==] and [!=] on dicts compute;
    - a dict whose iteration order is observed ([document_chunks]) is an
      association list kept in insertion order;
    - a call that can raise returns a [result]. *)

From Stdlib Require Import ZArith QArith String Ascii List Lia Permutation DecimalString.
From Stdlib Require Import DecimalNat Sorted.
From stdpp Require Import base list strings gmap.
Import ListNotations.

Open Scope string_scope.
Open Scope list_scope.
Open Scope Z_scope.

(** ** str methods *)

Module Str.

(** [str.isspace] on one character; also what [\s] matches. *)
Definition isspace (c : ascii) : bool :=
  let n := nat_of_ascii c in
  ((9 <=? n) && (n <=? 13) || (28 <=? n) && (n <=? 32)
   || (n =? 133) || (n =? 160))%nat.

(** What [\w] matches. *)
Definition isword (c : ascii) : bool :=
  let n := nat_of_ascii c in
  ((48 <=? n) && (n <=? 57) || (65 <=? n) && (n <=? 90) || (n =? 95)
   || (97 <=? n) && (n <=? 122) || (n =? 170) || (178 <=? n) && (n <=? 179)
   || (n =? 181) || (185 <=? n) && (n <=? 186) || (188 <=? n) && (n <=? 190)
   || (192 <=? n) && (n <=? 214) || (216 <=? n) && (n <=? 246)
   || (248 <=? n))%nat.

(** [str.lower] on one character. *)
Definition lower_char (c : ascii) : ascii :=
  let n := nat_of_ascii c in
  if ((65 <=? n) && (n <=? 90) || (192 <=? n) && (n <=? 214)
      || (216 <=? n) && (n <=? 222))%nat
  then ascii_of_nat (n + 32) else c.

Fixpoint lower (s : string) : string :=
  match s with
  | EmptyString => EmptyString
  | String c s' => String (lower_char c) (lower s')
  end.

Fixpoint lstrip (s : string) : string :=
  match s with
  | EmptyString => EmptyString
  | String c s' => if isspace c then lstrip s' else s
  end.

Fixpoint rstrip (s : string) : string :=
  match s with
  | EmptyString => EmptyString
  | String c s' =>
      match rstrip s' with
      | EmptyString => if isspace c then EmptyString else String c EmptyString
      | r => String c r
      end
  end.

(** [s.strip()] *)
Definition strip (s : string) : string := rstrip (lstrip s).

(** [s.split('\n')]: never empty, [""] for the empty string. *)
Fixpoint split_lines (s : string) : list string :=
  match s with
  | EmptyString => [EmptyString]
  | String c s' =>
      if Ascii.eqb c (ascii_of_nat 10) then EmptyString :: split_lines s'
      else match split_lines s' with
           | l :: ls => String c l :: ls
           | [] => [String c EmptyString]
           end
  end.

(** [sep.join(parts)] *)
Fixpoint join (sep : string) (parts : list string) : string :=
  match parts with
  | [] => EmptyString
  | [p] => p
  | p :: rest => p +:+ sep +:+ join sep rest
  end.

(** [sub in s] *)
Fixpoint contains (sub s : string) : bool :=
  String.prefix sub s
  || match s with
     | EmptyString => false
     | String _ s' => contains sub s'
     end.

(** [s[:n]] *)
Fixpoint take (n : nat) (s : string) : string :=
  match n, s with
  | S n', String c s' => String c (take n' s')
  | _, _ => EmptyString
  end.

(** [s] without the prefix [p], when it starts with [p]. *)
Fixpoint strip_prefix (p s : string) : option string :=
  match p, s with
  | EmptyString, _ => Some s
  | String a p', String b s' => if Ascii.eqb a b then strip_prefix p' s' else None
  | String _ _, EmptyString => None
  end.

(** [str(n)] for a non-negative [n], as the f-strings format [len(chunks)]. *)
Definition of_nat (n : nat) : string := NilZero.string_of_uint (Nat.to_uint n).

(** [int(c, 16)] on one character; [None] is [ValueError]. *)
Definition hex_value (c : ascii) : option Z :=
  let n := nat_of_ascii c in
  if ((48 <=? n) && (n <=? 57))%nat then Some (Z.of_nat n - 48)
  else if ((97 <=? n) && (n <=? 102))%nat then Some (Z.of_nat n - 87)
  else if ((65 <=? n) && (n <=? 70))%nat then Some (Z.of_nat n - 55)
  else None.

(** [int(s, 16)] on a string of hexadecimal digits; [None] is
    [ValueError].  Python also accepts a sign, a [0x] prefix, underscores
    and surrounding blanks; the module only passes slices of a hexdigest,
    which hold none of these. *)
Fixpoint int16_from (acc : Z) (s : string) : option Z :=
  match s with
  | EmptyString => Some acc
  | String c s' =>
      match hex_value c with
      | Some d => int16_from (16 * acc + d) s'
      | None => None
      end
  end.

Definition int16 (s : string) : option Z :=
  match s with
  | EmptyString => None
  | _ => int16_from 0 s
  end.

(** [s.encode()]: UTF-8 of code points below 256. *)
Definition encode_char (c : ascii) : list Z :=
  let n := Z.of_nat (nat_of_ascii c) in
  if n <? 128 then [n]
  else [Z.lor 192 (Z.shiftr n 6); Z.lor 128 (Z.land n 63)].

Fixpoint encode (s : string) : list Z :=
  match s with
  | EmptyString => []
  | String c s' => encode_char c ++ encode s'
  end.

End Str.

(** ** hashlib.md5 (RFC 1321) on byte lists *)

Module MD5.

Definition w32 (x : Z) : Z := Z.land x 4294967295.

Definition rotl (x c : Z) : Z :=
  w32 (Z.lor (Z.shiftl x c) (Z.shiftr x (32 - c))).

Definition not32 (x : Z) : Z := Z.lxor x 4294967295.

Definition K : list Z :=
  [ 0xd76aa478; 0xe8c7b756; 0x242070db; 0xc1bdceee;
    0xf57c0faf; 0x4787c62a; 0xa8304613; 0xfd469501;
    0x698098d8; 0x8b44f7af; 0xffff5bb1; 0x895cd7be;
    0x6b901122; 0xfd987193; 0xa679438e; 0x49b40821;
    0xf61e2562; 0xc040b340; 0x265e5a51; 0xe9b6c7aa;
    0xd62f105d; 0x02441453; 0xd8a1e681; 0xe7d3fbc8;
    0x21e1cde6; 0xc33707d6; 0xf4d50d87; 0x455a14ed;
    0xa9e3e905; 0xfcefa3f8; 0x676f02d9; 0x8d2a4c8a;
    0xfffa3942; 0x8771f681; 0x6d9d6122; 0xfde5380c;
    0xa4beea44; 0x4bdecfa9; 0xf6bb4b60; 0xbebfbc70;
    0x289b7ec6; 0xeaa127fa; 0xd4ef3085; 0x04881d05;
    0xd9d4d039; 0xe6db99e5; 0x1fa27cf8; 0xc4ac5665;
    0xf4292244; 0x432aff97; 0xab9423a7; 0xfc93a039;
    0x655b59c3; 0x8f0ccc92; 0xffeff47d; 0x85845dd1;
    0x6fa87e4f; 0xfe2ce6e0; 0xa3014314; 0x4e0811a1;
    0xf7537e82; 0xbd3af235; 0x2ad7d2bb; 0xeb86d391 ].

Definition shifts : list Z :=
  [ 7; 12; 17; 22; 7; 12; 17; 22; 7; 12; 17; 22; 7; 12; 17; 22;
    5; 9; 14; 20; 5; 9; 14; 20; 5; 9; 14; 20; 5; 9; 14; 20;
    4; 11; 16; 23; 4; 11; 16; 23; 4; 11; 16; 23; 4; 11; 16; 23;
    6; 10; 15; 21; 6; 10; 15; 21; 6; 10; 15; 21; 6; 10; 15; 21 ].

(** [n] bytes of [x], least significant first. *)
Fixpoint le_bytes (n : nat) (x : Z) : list Z :=
  match n with
  | O => []
  | S n' => Z.land x 255 :: le_bytes n' (Z.shiftr x 8)
  end.

Fixpoint of_le_bytes (bs : list Z) : Z :=
  match bs with
  | [] => 0
  | b :: bs' => b + 256 * of_le_bytes bs'
  end.

(** The message, a 1 bit, zeros up to 56 modulo 64, and the bit length on
    eight bytes. *)
Definition pad (msg : list Z) : list Z :=
  let len := Z.of_nat (List.length msg) in
  msg ++ [128] ++ repeat 0 (Z.to_nat ((55 - len) mod 64))
      ++ le_bytes 8 (8 * len).

Fixpoint words (n : nat) (bs : list Z) : list Z :=
  match n with
  | O => []
  | S n' => of_le_bytes (firstn 4 bs) :: words n' (skipn 4 bs)
  end.

Definition state : Type := Z * Z * Z * Z.

Definition round (M : list Z) (st : state) (i : nat) : state :=
  let '(a, b, c, d) := st in
  let j := Z.of_nat i in
  let '(f, g) :=
    if j <? 16 then (Z.lor (Z.land b c) (Z.land (not32 b) d), j)
    else if j <? 32 then (Z.lor (Z.land d b) (Z.land (not32 d) c), (5 * j + 1) mod 16)
    else if j <? 48 then (Z.lxor b (Z.lxor c d), (3 * j + 5) mod 16)
    else (Z.lxor c (Z.lor b (not32 d)), (7 * j) mod 16) in
  let f := w32 (f + a + nth i K 0 + nth (Z.to_nat g) M 0) in
  (d, w32 (b + rotl f (nth i shifts 0)), b, c).

Definition block (st : state) (bs : list Z) : state :=
  let '(a0, b0, c0, d0) := st in
  let '(a, b, c, d) := fold_left (round (words 16 bs)) (seq 0 64) st in
  (w32 (a0 + a), w32 (b0 + b), w32 (c0 + c), w32 (d0 + d)).

Fixpoint blocks (n : nat) (st : state) (bs : list Z) : state :=
  match n with
  | O => st
  | S n' => blocks n' (block st (firstn 64 bs)) (skipn 64 bs)
  end.

Definition init : state := (0x67452301, 0xefcdab89, 0x98badcfe, 0x10325476).

Definition digest (msg : list Z) : list Z :=
  let padded := pad msg in
  let '(a, b, c, d) := blocks (List.length padded / 64) init padded in
  le_bytes 4 a ++ le_bytes 4 b ++ le_bytes 4 c ++ le_bytes 4 d.

Definition hex_char (n : Z) : ascii :=
  ascii_of_nat (Z.to_nat (if n <? 10 then 48 + n else 87 + n)).

Fixpoint hex (bs : list Z) : string :=
  match bs with
  | [] => EmptyString
  | b :: bs' =>
      String (hex_char (Z.shiftr b 4)) (String (hex_char (Z.land b 15)) (hex bs'))
  end.

(** [hashlib.md5(data).hexdigest()] *)
Definition hexdigest (msg : list Z) : string := hex (digest msg).

End MD5.

(** ** Floating point: Python floats (binary64) stored into an np.float32 array *)

Module Float.

(** The quotient [n / d] of two positive integers rounded to nearest, ties
    to even, on [p] significant bits: a pair [(m, e)] with
    [2^(p-1) <= m < 2^p] that stands for [m * 2^e]. *)
Definition round (p n d : Z) : Z * Z :=
  let t := Z.log2 n - Z.log2 d in
  let t := if n * 2 ^ Z.max 0 (- t) <? d * 2 ^ Z.max 0 t then t - 1 else t in
  let e := t - (p - 1) in
  let N := n * 2 ^ Z.max 0 (- e) in
  let D := d * 2 ^ Z.max 0 e in
  let q := N / D in
  let r := N mod D in
  let q := if (D <? 2 * r) || ((D =? 2 * r) && Z.odd q) then q + 1 else q in
  if q =? 2 ^ p then (2 ^ (p - 1), e + 1) else (q, e).

(** [n / d] in binary64, for [0 <= n] and [0 < d]; zero is [(0, 0)]. *)
Definition div64 (n d : Z) : Z * Z :=
  if n =? 0 then (0, 0) else round 53 n d.

(** Storing a non-negative binary64 into a float32 slot, as the IEEE 754
    bit pattern.  Only results in the normal range are produced by the
    module (quotients [k / 15.0], [0 <= k <= 15]); overflow and subnormal
    results are not modelled. *)
Definition to_float32 (x : Z * Z) : Z :=
  let '(m, e) := x in
  if m =? 0 then 0
  else
    let '(m', e') := round 24 (m * 2 ^ Z.max 0 e) (2 ^ Z.max 0 (- e)) in
    (e' + 150) * 2 ^ 23 + (m' - 2 ^ 23).

(** The number a finite float32 bit pattern stands for; [None] for
    infinities and NaN. *)
Definition value (bits : Z) : option Q :=
  let sign := Z.shiftr bits 31 in
  let E := Z.land (Z.shiftr bits 23) 255 in
  let frac := Z.land bits (2 ^ 23 - 1) in
  if E =? 255 then None
  else
    let magnitude :=
      if E =? 0 then (inject_Z frac * Qpower 2 (-149))%Q
      else (inject_Z (2 ^ 23 + frac) * Qpower 2 (E - 150))%Q in
    Some (if sign =? 0 then magnitude else (- magnitude)%Q).

(** [0.0], what [np.zeros] fills with. *)
Definition zero : Z := 0.

End Float.

(** ** Values, errors and configuration *)

(** ["\n"] *)
Definition LF : string := String (ascii_of_nat 10) EmptyString.

(** [Dict[str, Any]] values that the module stores in chunk metadata. *)
Inductive value : Type :=
| VInt (n : Z)
| VStr (s : string).

#[global] Instance value_eq_dec : EqDecision value.
Proof. solve_decision. Defined.

(** Exceptions a call can end with. *)
Inductive exn : Type :=
| ValueError
| IndexError
| IndexAddError.

Inductive result (A : Type) : Type :=
| Ok (a : A)
| Raise (e : exn).
Arguments Ok {A} a.
Arguments Raise {A} e.

#[global] Instance result_ret : MRet result := fun A a => Ok a.

#[global] Instance result_bind : MBind result := fun A B k r =>
  match r with
  | Ok a => k a
  | Raise e => Raise e
  end.

Definition from_option {A} (e : exn) (o : option A) : result A :=
  match o with
  | Some a => Ok a
  | None => Raise e
  end.

(** The module constants, read from the environment with these defaults.
    [EMBEDDING_DIM] is a [nat]: [np.zeros] rejects a negative size. *)
Record Config : Type := {
  EMBEDDING_DIM : nat;
  CHUNK_SIZE : Z;
  CHUNK_OVERLAP : Z;
  MAX_CONTEXT_TOKENS : Z
}.

Definition default_config : Config :=
  {| EMBEDDING_DIM := 384; CHUNK_SIZE := 512; CHUNK_OVERLAP := 64;
     MAX_CONTEXT_TOKENS := 4096 |}.

(** [list.insert(i, x)]: [x] goes before position [i], or at the end when the
    list is shorter. *)
Definition list_insert_at {A} (i : nat) (x : A) (l : list A) : list A :=
  take i l ++ x :: drop i l.

(** A dict whose iteration order matters: keys in insertion order, a
    re-assigned key keeps its place. *)
Fixpoint dict_set {V} (k : string) (v : V) (d : list (string * V)) : list (string * V) :=
  match d with
  | [] => [(k, v)]
  | (k', v') :: d' =>
      if String.eqb k' k then (k, v) :: d' else (k', v') :: dict_set k v d'
  end.

Fixpoint dict_get {V} (k : string) (d : list (string * V)) : option V :=
  match d with
  | [] => None
  | (k', v') :: d' => if String.eqb k' k then Some v' else dict_get k d'
  end.

(** ** External libraries *)

(** [nltk.tokenize.sent_tokenize] *)
Class SentenceTokenizer : Type := {
  sent_tokenize : string -> list string
}.

(** [usearch.index.Index]: creation for a dimension, [len], [add] (which may
    raise), and [search], which yields the matched keys with their
    distances.  Vectors are lists of float32 bit patterns. *)
Class VectorIndex : Type := {
  Index : Type;
  Index_new : nat -> Index;
  Index_len : Index -> nat;
  Index_add : Index -> Z -> list Z -> option Index;
  Index_search : Index -> list Z -> Z -> list (Z * Q)
}.

(** ** Data classes *)

(** [@dataclass class DocumentChunk]; [created_at] is the clock reading
    taken by [__post_init__]. *)
Module DocumentChunk.
Record t : Type := mk {
  id : string;
  content : string;
  document_id : string;
  metadata : gmap string value;
  embedding : option (list Z);
  created_at : Z
}.
End DocumentChunk.

(** [@dataclass class RetrievedResult] *)
Module RetrievedResult.
Record t : Type := mk {
  content : string;
  score : Q;
  document_id : string;
  chunk_id : string;
  metadata : gmap string value
}.
End RetrievedResult.

(** A conversation turn, [Dict[str, str]]. *)
Abbreviation Message := (gmap string string).

(** ** class SmartChunker *)

Module SmartChunker.

Record t : Type := mk {
  chunk_size : Z;
  overlap : Z
}.

(** [SmartChunker()] *)
Definition new (cfg : Config) : t := mk (CHUNK_SIZE cfg) (CHUNK_OVERLAP cfg).

Section Chunking.
Context `{SentenceTokenizer}.
Variable self : t.
Variable document_id : string.

(** [clock n] is the time [datetime.now()] returns when the chunk with
    ordinal [n] is created. *)
Variable clock : nat -> Z.

(** The [DocumentChunk(...)] built at lines 97-103 and 119-125. *)
Definition text_chunk (chunks : list DocumentChunk.t) (current_chunk : string)
    (current_sentences : list string) : DocumentChunk.t :=
  DocumentChunk.mk
    (document_id +:+ "_chunk_" +:+ Str.of_nat (List.length chunks))
    (Str.strip current_chunk)
    document_id
    {[ "sentence_count" := VInt (Z.of_nat (List.length current_sentences)) ]}
    None
    (clock (List.length chunks)).

(** One iteration of [for sentence in sentences]. *)
Definition chunk_text_step
    (st : list DocumentChunk.t * string * list string) (sentence : string)
    : list DocumentChunk.t * string * list string :=
  let '(chunks, current_chunk, current_sentences) := st in
  let test_chunk :=
    match current_chunk with
    | EmptyString => sentence
    | _ => current_chunk +:+ " " +:+ sentence
    end in
  if Z.of_nat (String.length test_chunk) <=? chunk_size self
  then (chunks, test_chunk, current_sentences ++ [sentence])
  else
    let chunks :=
      match current_sentences with
      | [] => chunks
      | _ => chunks ++ [text_chunk chunks current_chunk current_sentences]
      end in
    if 0 <? overlap self
    then
      let overlap_sentences :=
        if (2 <=? List.length current_sentences)%nat
        then drop (List.length current_sentences - 2) current_sentences
        else current_sentences in
      let overlap_text := Str.join " " overlap_sentences in
      (chunks, overlap_text +:+ " " +:+ sentence, overlap_sentences ++ [sentence])
    else (chunks, sentence, [sentence]).

(** The loop and the final flush, on an already split text. *)
Definition chunk_sentences (sentences : list string) : list DocumentChunk.t :=
  let '(chunks, current_chunk, current_sentences) :=
    fold_left chunk_text_step sentences ([], EmptyString, []) in
  match current_sentences with
  | [] => chunks
  | _ => chunks ++ [text_chunk chunks current_chunk current_sentences]
  end.

Definition chunk_text (text : string) : list DocumentChunk.t :=
  chunk_sentences (sent_tokenize text).

(** [_detect_language] *)
Definition _detect_language (code : string) : string :=
  let first_few_lines :=
    Str.lower (Str.join LF (take 10 (Str.split_lines code))) in
  if Str.contains "import torch" first_few_lines
     || Str.contains "import tensorflow" first_few_lines then "python_ml"
  else if Str.contains "def " first_few_lines
          && Str.contains "import " first_few_lines then "python"
  else if Str.contains "function " first_few_lines
          || Str.contains "const " first_few_lines then "javascript"
  else if Str.contains "public class" first_few_lines
          || Str.contains "private void" first_few_lines then "java"
  else if Str.contains "#include" first_few_lines then "cpp"
  else if Str.contains "func " first_few_lines then "go"
  else if Str.contains "fn " first_few_lines
          && Str.contains "->" first_few_lines then "rust"
  else "unknown".

(** What is left of [s] after each of the keywords it starts with. *)
Definition after_keyword (keywords : list string) (s : string) : list string :=
  omap (fun keyword => Str.strip_prefix keyword s) keywords.

(** [re.match(r'^\s*(def|class|function|public|private|protected|fn)\s+\w+', line)]:
    blanks, a keyword, at least one blank, then a word character. *)
Definition match_declaration (line : string) : bool :=
  existsb
    (fun rest =>
       match rest with
       | String c _ =>
           Str.isspace c
           && match Str.lstrip rest with
              | String w _ => Str.isword w
              | EmptyString => false
              end
       | EmptyString => false
       end)
    (after_keyword ["def"; "class"; "function"; "public"; "private"; "protected"; "fn"]
                   (Str.lstrip line)).

(** [re.match(r'^\s*(if|for|while|switch)\s*\(', line)] *)
Definition match_control (line : string) : bool :=
  existsb
    (fun rest =>
       match Str.lstrip rest with
       | String c _ => Ascii.eqb c "("
       | EmptyString => false
       end)
    (after_keyword ["if"; "for"; "while"; "switch"] (Str.lstrip line)).

(** [re.match(r'^\s*#\s+', line)] *)
Definition match_comment (line : string) : bool :=
  match Str.lstrip line with
  | String c (String b _) => Ascii.eqb c "#" && Str.isspace b
  | _ => false
  end.

(** [any(re.match(pattern, line) for pattern in func_patterns)] *)
Definition is_new_unit (line : string) : bool :=
  match_declaration line || match_control line || match_comment line.

(** The [DocumentChunk(...)] built at lines 158-167 and 187-196. *)
Definition code_chunk (code : string) (chunks : list DocumentChunk.t)
    (chunk_content : string) (start_line end_line : Z) : DocumentChunk.t :=
  DocumentChunk.mk
    (document_id +:+ "_code_chunk_" +:+ Str.of_nat (List.length chunks))
    chunk_content
    document_id
    (<["start_line" := VInt start_line]>
       (<["end_line" := VInt end_line]>
          {[ "language" := VStr (_detect_language code) ]}))
    None
    (clock (List.length chunks)).

(** Lines 155-168 and 184-197: the accumulated lines become a chunk
    unless they are blank. *)
Definition emit_code_chunk (code : string) (chunks : list DocumentChunk.t)
    (current_chunk : list string) (start_line end_line : Z)
    : list DocumentChunk.t :=
  let chunk_content := Str.join LF current_chunk in
  if (0 <? String.length (Str.strip chunk_content))%nat
  then chunks ++ [code_chunk code chunks chunk_content start_line end_line]
  else chunks.

(** One iteration of [for i, line in enumerate(lines)]. *)
Definition chunk_code_step (code : string) (lines : list string)
    (st : list DocumentChunk.t * list string * Z) (entry : nat * string)
    : list DocumentChunk.t * list string * Z :=
  let '(chunks, current_chunk, chunk_start_line) := st in
  let '(i, line) := entry in
  if is_new_unit line && (0 <? List.length current_chunk)%nat
  then
    let chunks :=
      emit_code_chunk code chunks current_chunk chunk_start_line (Z.of_nat i - 1) in
    if 0 <? overlap self
    then
      let overlap_start := Z.to_nat (Z.max 0 (Z.of_nat i - overlap self)) in
      (chunks, take (i + 1 - overlap_start) (drop overlap_start lines),
       Z.of_nat overlap_start)
    else (chunks, [line], Z.of_nat i)
  else (chunks, current_chunk ++ [line], chunk_start_line).

Definition chunk_code (code : string) : list DocumentChunk.t :=
  let lines := Str.split_lines code in
  let '(chunks, current_chunk, chunk_start_line) :=
    fold_left (chunk_code_step code lines)
              (combine (seq 0 (List.length lines)) lines) ([], [], 0) in
  match current_chunk with
  | [] => chunks
  | _ => emit_code_chunk code chunks current_chunk chunk_start_line
           (Z.of_nat (List.length lines) - 1)
  end.

End Chunking.

End SmartChunker.

(** ** class BGEEncoder *)

Module BGEEncoder.

(** [model] is [None] when loading failed.  A loaded model, with its
    tokenizer, is a function from the batch to the embeddings that may
    raise ([None]). *)
Record t : Type := mk {
  model : option (list string -> option (list (list Z)))
}.

(** Line 290, [embedding[i] = int(text_hash[i % len(text_hash)], 16) / 15.0]. *)
Definition fill (text_hash : string) (embedding : result (list Z)) (i : nat)
    : result (list Z) :=
  embedding ← embedding;
  c ← from_option IndexError (String.get (i mod String.length text_hash) text_hash);
  digit ← from_option ValueError (Str.hex_value c);
  if (i <? List.length embedding)%nat
  then Ok (<[ i := Float.to_float32 (Float.div64 digit 15) ]> embedding)
  else Raise IndexError.

(** Lines 285-290: the embedding of one text. *)
Definition fallback_vector (cfg : Config) (text : string) : result (list Z) :=
  let text_hash := MD5.hexdigest (Str.encode text) in
  let embedding := repeat Float.zero (EMBEDDING_DIM cfg) in
  fold_left (fill text_hash)
            (seq 0 (Nat.min (String.length text_hash) (EMBEDDING_DIM cfg)))
            (Ok embedding).

Definition _fallback_encode (cfg : Config) (texts : list string)
    : result (list (list Z)) :=
  fold_left
    (fun embeddings text =>
       embeddings ← embeddings;
       embedding ← fallback_vector cfg text;
       Ok (embeddings ++ [embedding]))
    texts (Ok []).

Definition encode (cfg : Config) (self : t) (texts : list string)
    : result (list (list Z)) :=
  match model self with
  | None => _fallback_encode cfg texts
  | Some run =>
      match run texts with
      | Some embeddings => Ok embeddings
      | None => _fallback_encode cfg texts
      end
  end.

End BGEEncoder.

(** ** class USearchIndex *)

Module USearchIndex.

Section WithIndex.
Context `{VectorIndex}.

(** [document_chunks] keeps insertion order: [search] and
    [get_document_summary] iterate over it. *)
Record t : Type := mk {
  index : Index;
  document_chunks : list (string * DocumentChunk.t)
}.

(** The two files [save] writes: the index and the [.chunks.json]
    sidecar. *)
Record files : Type := mk_files {
  index_file : option Index;
  chunks_file : option (list DocumentChunk.t)
}.

(** [int(hashlib.md5(cid.encode()).hexdigest()[:16], 16)] *)
Definition index_key (cid : string) : option Z :=
  Str.int16 (Str.take 16 (MD5.hexdigest (Str.encode cid))).

(** [save]: both files are rewritten.  A failed write is caught and
    logged by the code and may leave either file as it was or cut short;
    only the successful write is modelled, so no property below says what
    the files hold after a call that returns. *)
Definition save (self : t) (disk : files) : files :=
  mk_files (Some (index self)) (Some (map snd (document_chunks self))).

Definition add_chunk (self : t) (disk : files) (chunk : DocumentChunk.t)
    (embedding : list Z) : result unit * (t * files) :=
  match index_key (DocumentChunk.id chunk) with
  | None => (Raise ValueError, (self, disk))
  | Some chunk_id_hash =>
      match Index_add (index self) chunk_id_hash embedding with
      | None => (Raise IndexAddError, (self, disk))
      | Some index' =>
          let self' :=
            mk index' (dict_set (DocumentChunk.id chunk) chunk (document_chunks self)) in
          (Ok tt, (self', save self' disk))
      end
  end.

(** Lines 360-364: the first chunk id whose derived key is [key]. *)
Fixpoint find_chunk_id (items : list (string * DocumentChunk.t)) (key : Z)
    : result (option string) :=
  match items with
  | [] => Ok None
  | (cid, _) :: rest =>
      k ← from_option ValueError (index_key cid);
      if k =? key then Ok (Some cid) else find_chunk_id rest key
  end.

(** Lines 358-370.  [if chunk_id:] is false for [None] and for the empty
    string.  The similarity is the exact quotient. *)
Definition search_step (self : t) (results : result (list (string * Q)))
    (entry : Z * Q) : result (list (string * Q)) :=
  let '(key, distance) := entry in
  results ← results;
  chunk_id ← find_chunk_id (document_chunks self) key;
  match chunk_id with
  | Some (String c s) =>
      let similarity := (1 / (1 + distance))%Q in
      Ok (results ++ [(String c s, similarity)])
  | _ => Ok results
  end.

Definition search (self : t) (query_embedding : list Z) (k : Z)
    : result (list (string * Q)) :=
  if (Index_len (index self) =? 0)%nat then Ok []
  else fold_left (search_step self)
                 (Index_search (index self) query_embedding k) (Ok []).

End WithIndex.

End USearchIndex.

(** ** class ContextManager *)

Module ContextManager.

(** [tokenizer] is [None] unless the model directory exists locally; a
    loaded tokenizer is any function from text to token ids. *)
Record t : Type := mk {
  max_tokens : Z;
  tokenizer : option (string -> list Z)
}.

Definition count_tokens (self : t) (text : string) : Z :=
  match tokenizer self with
  | Some encode => Z.of_nat (List.length (encode text))
  | None => Z.of_nat (String.length text) / 4
  end.

(** [msg.get("content", "")] *)
Definition get_content (msg : Message) : string :=
  default "" (msg !! "content").

(** [msg.get("role") == "system"] *)
Definition is_system (msg : Message) : bool :=
  bool_decide (msg !! "role" = Some "system").

(** [msg != system_msg] *)
Definition msg_ne (system_msg msg : Message) : bool :=
  negb (bool_decide (msg = system_msg)).

(** Lines 430-436: the text whose token count decides whether anything is
    dropped.  [if retrieved_chunks:] skips [None] and the empty list; the
    loop over an empty list adds nothing either. *)
Definition total_content (messages : list Message)
    (retrieved_chunks : option (list RetrievedResult.t)) : string :=
  let total_content :=
    fold_left (fun acc msg => acc +:+ get_content msg +:+ LF) messages "" in
  match retrieved_chunks with
  | Some chunks =>
      fold_left (fun acc chunk => acc +:+ RetrievedResult.content chunk +:+ LF)
                chunks total_content
  | None => total_content
  end.

(** Lines 463-469: [for msg in reversed(remaining_messages)] with its
    [break]; [msgs] is the reversed list. *)
Fixpoint add_recent (self : t) (msgs : list Message)
    (truncated_messages : list Message) (current_tokens : Z)
    : list Message * Z :=
  match msgs with
  | [] => (truncated_messages, current_tokens)
  | msg :: rest =>
      let msg_tokens := count_tokens self (get_content msg) in
      if current_tokens + msg_tokens <=? max_tokens self
      then add_recent self rest
             (list_insert_at 1 msg truncated_messages)
             (current_tokens + msg_tokens)
      else (truncated_messages, current_tokens)
  end.

(** [truncate_context].  A turn found by the role test has a ["role"] key,
    so the later [if system_msg:] tests are true exactly when one was
    found. *)
Definition truncate_context (self : t) (messages : list Message)
    (retrieved_chunks : option (list RetrievedResult.t)) : list Message :=
  match messages with
  | [] => messages
  | _ =>
      let total_tokens :=
        count_tokens self (total_content messages retrieved_chunks) in
      if total_tokens <=? max_tokens self then messages
      else
        let system_msg := List.find is_system messages in
        match system_msg with
        | Some system_msg =>
            let current_tokens := count_tokens self (get_content system_msg) in
            let remaining_messages := List.filter (msg_ne system_msg) messages in
            let (truncated_messages, _) :=
              add_recent self (rev remaining_messages) [system_msg] current_tokens in
            let non_system := List.filter (msg_ne system_msg) truncated_messages in
            [system_msg] ++ rev non_system
        | None =>
            let (truncated_messages, _) :=
              add_recent self (rev messages) [] 0 in
            rev truncated_messages
        end
  end.

(** Sum of the per-turn estimates, the quantity the loop accumulates in
    [current_tokens]. *)
Definition turns_tokens (self : t) (messages : list Message) : Z :=
  fold_right (fun msg acc => count_tokens self (get_content msg) + acc) 0 messages.

End ContextManager.

(** ** class RAGEngine *)

Module RAGEngine.

(** What [get_document_summary] returns; [ingested_at] is the clock
    reading itself, before [isoformat]. *)
Record summary : Type := mk_summary {
  summary_id : string;
  length : Z;
  chunk_count : Z;
  first_chunk_preview : string;
  ingested_at : option Z
}.

Section WithLibraries.
Context `{SentenceTokenizer} `{VectorIndex}.

Record t : Type := mk {
  chunker : SmartChunker.t;
  encoder : BGEEncoder.t;
  vector_index : USearchIndex.t;
  context_manager : ContextManager.t;
  documents : gmap string string
}.

(** [RAGEngine()] when no index file exists yet; [encoder] and
    [tokenizer] are what loading produced. *)
Definition new (cfg : Config) (encoder : BGEEncoder.t)
    (tokenizer : option (string -> list Z)) : t :=
  mk (SmartChunker.new cfg) encoder
     (USearchIndex.mk (Index_new (EMBEDDING_DIM cfg)) [])
     (ContextManager.mk (MAX_CONTEXT_TOKENS cfg) tokenizer)
     ∅.

Definition code_indicators : list string :=
  [ "def "; "class "; "import "; "from "; "function ";
    "{"; "}"; "var "; "let "; "const "; "public "; "private ";
    "#include"; "int main"; "void "; "struct "; "enum " ].

(** [_is_code].  The test [code_lines / max(len(lines), 1) > 0.3] is on
    at most ten lines, where the float comparison agrees with
    [10 * code_lines > 3 * max(len(lines), 1)]. *)
Definition _is_code (text : string) : bool :=
  let lines := take 10 (Str.split_lines text) in
  let code_lines :=
    List.length
      (List.filter
         (fun line => existsb (fun indicator => Str.contains indicator line)
                              code_indicators)
         lines) in
  (3 * Nat.max (List.length lines) 1 <? 10 * code_lines)%nat.

(** Lines 514-515, [for chunk, embedding in zip(chunks, embeddings)]. *)
Fixpoint add_chunks (index : USearchIndex.t) (disk : USearchIndex.files)
    (pairs : list (DocumentChunk.t * list Z))
    : result unit * (USearchIndex.t * USearchIndex.files) :=
  match pairs with
  | [] => (Ok tt, (index, disk))
  | (chunk, embedding) :: rest =>
      match USearchIndex.add_chunk index disk chunk embedding with
      | (Ok _, (index', disk')) => add_chunks index' disk' rest
      | (Raise e, state) => (Raise e, state)
      end
  end.

(** [ingest_document].  The [metadata] argument is accepted and not
    used.  An exception leaves the mutations made before it in place. *)
Definition ingest_document (cfg : Config) (self : t) (disk : USearchIndex.files)
    (content : string) (doc_id : option string)
    (metadata : option (gmap string value)) (clock : nat -> Z)
    : result string * (t * USearchIndex.files) :=
  let doc_id :=
    match doc_id with
    | None => "doc_" +:+ Str.take 12 (MD5.hexdigest (Str.encode content))
    | Some doc_id => doc_id
    end in
  let self :=
    mk (chunker self) (encoder self) (vector_index self) (context_manager self)
       (<[ doc_id := content ]> (documents self)) in
  let chunks :=
    if _is_code content
    then SmartChunker.chunk_code (chunker self) doc_id clock content
    else SmartChunker.chunk_text (chunker self) doc_id clock content in
  let chunk_contents := map DocumentChunk.content chunks in
  match BGEEncoder.encode cfg (encoder self) chunk_contents with
  | Raise e => (Raise e, (self, disk))
  | Ok embeddings =>
      let '(outcome, (index', disk')) :=
        add_chunks (vector_index self) disk (combine chunks embeddings) in
      let self :=
        mk (chunker self) (encoder self) index' (context_manager self)
           (documents self) in
      (_ ← outcome; Ok doc_id, (self, disk'))
  end.

(** Lines 553-563: one result per search hit whose chunk id is a key of
    [document_chunks]. *)
Definition hydrate (index : USearchIndex.t) (search_results : list (string * Q))
    : list RetrievedResult.t :=
  omap
    (fun '(chunk_id, similarity) =>
       chunk ← dict_get chunk_id (USearchIndex.document_chunks index);
       Some (RetrievedResult.mk
               (DocumentChunk.content chunk) similarity
               (DocumentChunk.document_id chunk) (DocumentChunk.id chunk)
               (DocumentChunk.metadata chunk)))
    search_results.

(** [list.sort(key=lambda x: x.score, reverse=True)]: stable, highest
    score first. *)
Fixpoint insert_by_score (r : RetrievedResult.t) (sorted : list RetrievedResult.t)
    : list RetrievedResult.t :=
  match sorted with
  | [] => [r]
  | x :: rest =>
      if Qle_bool (RetrievedResult.score r) (RetrievedResult.score x)
      then x :: insert_by_score r rest
      else r :: sorted
  end.

Definition sort_by_score (results : list RetrievedResult.t) : list RetrievedResult.t :=
  fold_left (fun sorted r => insert_by_score r sorted) results [].

(** [retrieve]; the coroutine never awaits, so it is a plain call. *)
Definition retrieve (cfg : Config) (self : t) (query : string) (k : Z)
    : result (list RetrievedResult.t) :=
  query_embeddings ← BGEEncoder.encode cfg (encoder self) [query];
  query_embedding ← from_option IndexError (head query_embeddings);
  search_results ← USearchIndex.search (vector_index self) query_embedding k;
  Ok (sort_by_score (hydrate (vector_index self) search_results)).

Definition get_document_summary (self : t) (doc_id : string) : option summary :=
  match documents self !! doc_id with
  | None => None
  | Some content =>
      let chunks :=
        List.filter
          (fun chunk => String.eqb (DocumentChunk.document_id chunk) doc_id)
          (map snd (USearchIndex.document_chunks (vector_index self))) in
      Some (mk_summary
              doc_id
              (Z.of_nat (String.length content))
              (Z.of_nat (List.length chunks))
              match chunks with
              | first :: _ => Str.take 100 (DocumentChunk.content first) +:+ "..."
              | [] => EmptyString
              end
              match chunks with
              | first :: _ => Some (DocumentChunk.created_at first)
              | [] => None
              end)
  end.

End WithLibraries.

End RAGEngine.

(** ** Stand-ins for the external libraries, to run the model on examples *)

(** A sentence ends at [.], [!] or [?] followed by a blank or the end of the
    text; blanks between sentences are dropped.  On the example texts below
    this is the split [sent_tokenize] makes. *)
Fixpoint split_sentences (current s : string) : list string :=
  match s with
  | EmptyString =>
      match current with
      | EmptyString => []
      | _ => [current]
      end
  | String c s' =>
      match current with
      | EmptyString =>
          if Str.isspace c then split_sentences EmptyString s'
          else split_sentences (String c EmptyString) s'
      | _ =>
          let current := current +:+ String c EmptyString in
          let ends :=
            (Ascii.eqb c "." || Ascii.eqb c "!" || Ascii.eqb c "?")
            && match s' with
               | String d _ => Str.isspace d
               | EmptyString => true
               end in
          if ends then current :: split_sentences EmptyString s'
          else split_sentences current s'
      end
  end.

#[global] Instance simple_tokenizer : SentenceTokenizer :=
  {| sent_tokenize := split_sentences EmptyString |}.

(** An index kept as the list of its entries; [search] returns the first [k]
    entries, each with the number of coordinates in which it differs from
    the query as its distance. *)
Definition differing (u v : list Z) : Z :=
  Z.of_nat (List.length (List.filter (fun '(a, b) => negb (a =? b)) (combine u v))).

#[global] Instance list_index : VectorIndex :=
  {| Index := list (Z * list Z);
     Index_new := fun _ => [];
     Index_len := fun ix => List.length ix;
     Index_add := fun ix key vector => Some (ix ++ [(key, vector)]);
     Index_search := fun ix query k =>
       map (fun '(key, vector) => (key, inject_Z (differing query vector)))
           (take (Z.to_nat k) ix) |}.
(** ** The value the fallback encoder derives for one position *)

(** The float32 stored for hexadecimal digit number [i mod len(text_hash)]
    of the digest, [0.0] when there is no such digit. *)
Definition digit_value (text_hash : string) (i : nat) : Z :=
  match String.get (i mod String.length text_hash) text_hash with
  | Some c =>
      match Str.hex_value c with
      | Some digit => Float.to_float32 (Float.div64 digit 15)
      | None => Float.zero
      end
  | None => Float.zero
  end.

(** The vector the loop at lines 289-290 builds: digit-derived values on the
    first [min(len(text_hash), EMBEDDING_DIM)] positions, zeros after. *)
Definition filled_vector (cfg : Config) (text : string) : list Z :=
  let text_hash := MD5.hexdigest (Str.encode text) in
  let filled := Nat.min (String.length text_hash) (EMBEDDING_DIM cfg) in
  map (digit_value text_hash) (seq 0 filled)
  ++ repeat Float.zero (EMBEDDING_DIM cfg - filled).

(** Every character is a hexadecimal digit. *)
Definition hex_string (s : string) : Prop :=
  forall i c, String.get i s = Some c ->
    exists digit, Str.hex_value c = Some digit /\ 0 <= digit <= 15.

(** ** Search hits that can be hydrated *)

(** The chunk id of a hit is a key of [document_chunks]. *)
Definition stored `{VectorIndex} (self : USearchIndex.t) (hit : string * Q) : Prop :=
  is_Some (dict_get (fst hit) (USearchIndex.document_chunks self)).

(** ** Ordering of a truncated history *)

(** [l1] can be obtained from [l2] by deleting turns (greedy left-to-right
    matching decides this). *)
Fixpoint is_subsequence (l1 l2 : list Message) : bool :=
  match l1, l2 with
  | [], _ => true
  | _ :: _, [] => false
  | x :: l1', y :: l2' =>
      if bool_decide (x = y) then is_subsequence l1' l2' else is_subsequence l1 l2'
  end.

(** Chronological order with the system turn first: when the history has a
    system turn the output starts with it and the rest follows the order of
    the history; otherwise the whole output follows the order of the
    history. *)
Definition chronological_order (messages out : list Message) : bool :=
  match List.find ContextManager.is_system messages with
  | Some system_msg =>
      match out with
      | first :: rest => bool_decide (first = system_msg) && is_subsequence rest messages
      | [] => false
      end
  | None => is_subsequence out messages
  end.

(** ** Example data *)

Definition turn (role content : string) : Message :=
  <["role" := role]> (<["content" := content]> ∅).

(** A budget of three tokens and a history of four one-token turns. *)
Definition cm3 : ContextManager.t := ContextManager.mk 3 None.

Definition hist4 : list Message :=
  [turn "system" "sys!"; turn "user" "aaaa"; turn "assistant" "bbbb"; turn "user" "cccc"].

(** The scenario of a long history: a system turn and one hundred turns of
    one token each ("t000" .. "t099"), with a budget of twenty tokens. *)
Definition numbered_turn (i : nat) : Message :=
  turn "user" ("t" +:+ (if (i <? 10)%nat then "00" else "0") +:+ Str.of_nat i).

Definition hist100 : list Message :=
  turn "system" "sys!" :: map numbered_turn (seq 0 100).

Definition cm20 : ContextManager.t := ContextManager.mk 20 None.

(** A budget of two tokens and three turns of three characters each: every
    turn counts 0 tokens on its own, the joined text counts 3. *)
Definition cm2 : ContextManager.t := ContextManager.mk 2 None.

Definition hist3 : list Message :=
  [turn "user" "aaa"; turn "assistant" "bbb"; turn "user" "ccc"].

(** Three one-token turns without a system turn, and one retrieved segment
    of two tokens. *)
Definition turns3 : list Message :=
  [turn "user" "aaaa"; turn "assistant" "bbbb"; turn "user" "cccc"].

Definition retrieved1 : RetrievedResult.t :=
  RetrievedResult.mk "abcdefgh" 1%Q "doc1" "doc1_chunk_0" ∅.

(** A fresh engine on the default configuration, without embedding model or
    tokenizer, running on the stand-in libraries; nothing on disk. *)
Definition eng0 : RAGEngine.t :=
  RAGEngine.new default_config (BGEEncoder.mk None) None.

Definition disk0 : USearchIndex.files := USearchIndex.mk_files None None.

Definition clock0 (n : nat) : Z := Z.of_nat n.

Definition python_text : string := "Python is a language.".

(** The engine after [ingest_document("Python is a language.", "doc1")]. *)
Definition eng1 : RAGEngine.t :=
  fst (snd (RAGEngine.ingest_document default_config eng0 disk0
              python_text (Some "doc1") None clock0)).

(** Three sentences of 200 characters each, and the text they make. *)
Fixpoint repeat_char (n : nat) (c : ascii) : string :=
  match n with
  | O => EmptyString
  | S n' => String c (repeat_char n' c)
  end.

Definition sentence_a : string := "A" +:+ repeat_char 198 "a" +:+ ".".
Definition sentence_b : string := "B" +:+ repeat_char 198 "b" +:+ ".".
Definition sentence_c : string := "C" +:+ repeat_char 198 "c" +:+ ".".

Definition three_sentences : string :=
  sentence_a +:+ " " +:+ sentence_b +:+ " " +:+ sentence_c.

(** A chunk within the size bound, or made of a single sentence. *)
Definition bounded_or_single (self : SmartChunker.t) (chunk : DocumentChunk.t) : Prop :=
  Z.of_nat (String.length (DocumentChunk.content chunk)) <= SmartChunker.chunk_size self
  \/ DocumentChunk.metadata chunk = {[ "sentence_count" := VInt 1 ]}.

(** The invariant of the sentence loop when there is no overlap: the chunks
    emitted so far are bounded or single, and so is the running buffer
    whenever it holds a sentence. *)
Definition chunking_ok (self : SmartChunker.t)
    (st : list DocumentChunk.t * string * list string) : Prop :=
  let '(chunks, current_chunk, current_sentences) := st in
  List.Forall (bounded_or_single self) chunks
  /\ (current_sentences = []
      \/ Z.of_nat (String.length current_chunk) <= SmartChunker.chunk_size self
      \/ List.length current_sentences = 1%nat).

(** ** Chunk numbering *)

(** The chunk at position [i] carries the id [document_id ++ infix ++ str(i)]
    and the document id. *)
Definition numbered (infix document_id : string) (chunks : list DocumentChunk.t) : Prop :=
  forall i chunk, chunks !! i = Some chunk ->
    DocumentChunk.id chunk = document_id +:+ infix +:+ Str.of_nat i
    /\ DocumentChunk.document_id chunk = document_id.

(** The state of the sentence loop after [n] sentences: nothing before the
    first sentence; afterwards the buffer holds a sentence and fewer than
    [n] chunks have been emitted. *)
Definition text_progress (n : nat)
    (st : list DocumentChunk.t * string * list string) : Prop :=
  let '(chunks, _, current_sentences) := st in
  match n with
  | O => chunks = [] /\ current_sentences = []
  | S _ => current_sentences <> [] /\ (List.length chunks < n)%nat
  end.

(** ** Line ranges of code chunks *)

(** [lines[a:b+1]] joined by newlines. *)
Definition line_range (lines : list string) (a b : nat) : string :=
  Str.join LF (take (b + 1 - a) (drop a lines)).

(** A code chunk records the line range it was cut from, holds exactly those
    lines, is tagged with the language detected on the whole code, and is
    not blank. *)
Definition code_chunk_ok (code : string) (chunk : DocumentChunk.t) : Prop :=
  exists a b : nat,
    (a <= b < List.length (Str.split_lines code))%nat
    /\ DocumentChunk.metadata chunk !! "start_line" = Some (VInt (Z.of_nat a))
    /\ DocumentChunk.metadata chunk !! "end_line" = Some (VInt (Z.of_nat b))
    /\ DocumentChunk.metadata chunk !! "language"
       = Some (VStr (SmartChunker._detect_language code))
    /\ DocumentChunk.content chunk = line_range (Str.split_lines code) a b
    /\ Str.strip (DocumentChunk.content chunk) <> EmptyString.

(** The state of the line loop before line [k]: the buffer holds the lines
    from [chunk_start_line] up to [k], and the chunks emitted so far are
    well formed and numbered. *)
Definition code_progress (code document_id : string) (k : nat)
    (st : list DocumentChunk.t * list string * Z) : Prop :=
  let '(chunks, current_chunk, chunk_start_line) := st in
  exists a : nat,
    chunk_start_line = Z.of_nat a
    /\ (a <= k)%nat
    /\ current_chunk = take (k - a) (drop a (Str.split_lines code))
    /\ List.Forall (code_chunk_ok code) chunks
    /\ numbered "_code_chunk_" document_id chunks.

(** A float32 bit pattern that stands for a number of the unit interval. *)
Definition unit_float32 (bits : Z) : Prop :=
  exists q, Float.value bits = Some q /\ (0 <= q <= 1)%Q.

(** ** Keys of the chunk metadata *)

(** Every key is the id of the chunk stored under it, and no key occurs
    twice. *)
Definition well_keyed (d : list (string * DocumentChunk.t)) : Prop :=
  List.Forall (fun entry => fst entry = DocumentChunk.id (snd entry)) d
  /\ List.NoDup (map fst d).

(** Where a search result comes from: a hit of the library whose key is the
    derived key of the chunk id, with the similarity computed from its
    distance; the id is not empty and is a key of [document_chunks]. *)
Definition from_hit `{VectorIndex} (self : USearchIndex.t) (hits : list (Z * Q))
    (result : string * Q) : Prop :=
  exists key distance,
    In (key, distance) hits
    /\ USearchIndex.index_key (fst result) = Some key
    /\ snd result = (1 / (1 + distance))%Q
    /\ fst result <> EmptyString
    /\ is_Some (dict_get (fst result) (USearchIndex.document_chunks self)).

(** ** RAGEngine.augment_query_with_context *)

(** ["Contexte récupéré:"], with its three [é] (code point 233). *)
Definition contexte_recupere : string :=
  "Contexte r" +:+ String (ascii_of_nat 233) "cup"
  +:+ String (ascii_of_nat 233) "r" +:+ String (ascii_of_nat 233) ":".

(** Lines 577-581: the header, then three parts per result. *)
Definition context_parts (retrieved_results : list RetrievedResult.t) : list string :=
  fold_left
    (fun parts result =>
       parts ++ [ "Document: " +:+ RetrievedResult.document_id result;
                  "Contenu: " +:+ RetrievedResult.content result;
                  "---" ])
    retrieved_results [contexte_recupere].

Definition augment_query_with_context (query : string)
    (retrieved_results : list RetrievedResult.t) : string :=
  match retrieved_results with
  | [] => query
  | _ =>
      Str.join LF (context_parts retrieved_results)
      +:+ LF +:+ LF +:+ "Question originale: " +:+ query
  end.

(** ** Results as projections of stored chunks *)

(** A result carries the content, document id, id and metadata of a chunk
    stored in [document_chunks]. *)
Definition projection_of `{VectorIndex} (index : USearchIndex.t)
    (result : RetrievedResult.t) : Prop :=
  exists cid chunk,
    dict_get cid (USearchIndex.document_chunks index) = Some chunk
    /\ RetrievedResult.content result = DocumentChunk.content chunk
    /\ RetrievedResult.document_id result = DocumentChunk.document_id chunk
    /\ RetrievedResult.chunk_id result = DocumentChunk.id chunk
    /\ RetrievedResult.metadata result = DocumentChunk.metadata chunk.

(** Scores from highest to lowest. *)
Definition by_descending_score (a b : RetrievedResult.t) : Prop :=
  (RetrievedResult.score b <= RetrievedResult.score a)%Q.

(** The id [ingest_document] files the document under. *)
Definition resolved_doc_id (content : string) (doc_id : option string) : string :=
  match doc_id with
  | None => "doc_" +:+ Str.take 12 (MD5.hexdigest (Str.encode content))
  | Some doc_id => doc_id
  end.

(** The example engine after a second document, and what it retrieves for
    the query "Rust". *)
Definition rust_text : string := "Rust is a systems language. It has no garbage collector.".

Definition eng2 : RAGEngine.t :=
  fst (snd (RAGEngine.ingest_document default_config eng1
              (USearchIndex.save (RAGEngine.vector_index eng1) disk0)
              rust_text (Some "doc2") None clock0)).

Definition retrieved_rust : list RetrievedResult.t :=
  match RAGEngine.retrieve default_config eng2 "Rust" 5 with
  | Ok retrieved => retrieved
  | Raise _ => []
  end.

(** ** Sentences behind the chunks of chunk_text *)



(** A manager with a loaded tokenizer that yields one token per character,
    and a budget of nine tokens. *)
Definition cm_chars : ContextManager.t :=
  ContextManager.mk 9 (Some (fun text => map (fun c => Z.of_nat (nat_of_ascii c))
                                             (list_ascii_of_string text))).

(** ** Lines behind the chunks of chunk_code *)

(** The chunk was cut from a line range that includes line [i] (counted
    from 0), and its content is that range of lines. *)
Definition holds_line (code : string) (i : nat) (chunk : DocumentChunk.t) : Prop :=
  exists a b : nat,
    (a <= i <= b)%nat
    /\ DocumentChunk.metadata chunk !! "start_line" = Some (VInt (Z.of_nat a))
    /\ DocumentChunk.metadata chunk !! "end_line" = Some (VInt (Z.of_nat b))
    /\ DocumentChunk.content chunk = line_range (Str.split_lines code) a b.

(** Before line [k], every earlier line that is not blank is in the buffer
    or in an emitted chunk. *)
Definition code_coverage (code : string) (k : nat)
    (st : list DocumentChunk.t * list string * Z) : Prop :=
  let '(chunks, _, chunk_start_line) := st in
  forall i line,
    (i < k)%nat -> Str.split_lines code !! i = Some line ->
    Str.strip line <> EmptyString ->
    chunk_start_line <= Z.of_nat i \/ List.Exists (holds_line code i) chunks.

(** Seven lines of Python, two of them empty. *)
Definition sample_code : string :=
  "import os" +:+ LF +:+ LF +:+ "def f(x):" +:+ LF +:+ "  return x" +:+ LF +:+ LF
  +:+ "def g():" +:+ LF +:+ "  pass".

(** * Verified properties *)

(** Closed statements about concrete inputs are decided by evaluation. *)
Ltac decide_by_computation :=
  lazymatch goal with
  | |- ~ _ => apply (bool_decide_eq_false_1 _); vm_compute; reflexivity
  | |- _ <> _ => apply (bool_decide_eq_false_1 _); vm_compute; reflexivity
  | |- _ => apply (bool_decide_eq_true_1 _); vm_compute; reflexivity
  end.

(** ** Strings *)

Lemma string_length_app (s1 s2 : string) :
  String.length (s1 +:+ s2) = (String.length s1 + String.length s2)%nat.
Proof. induction s1 as [|c s1 IH]; simpl; [reflexivity | now rewrite IH]. Qed.

(** ** hashlib.md5: shape of a hexdigest *)

Lemma le_bytes_length n : forall x, List.length (MD5.le_bytes n x) = n.
Proof. induction n as [|n IH]; intros x; simpl; [reflexivity | now rewrite IH]. Qed.

Lemma le_bytes_range n : forall x,
  List.Forall (fun b => 0 <= b < 256) (MD5.le_bytes n x).
Proof.
  induction n as [|n IH]; intros x; simpl; constructor; [|apply IH].
  change 255 with (Z.ones 8). rewrite Z.land_ones by lia.
  apply Z.mod_pos_bound. lia.
Qed.

Lemma digest_length msg : List.length (MD5.digest msg) = 16%nat.
Proof.
  unfold MD5.digest.
  destruct (MD5.blocks _ _ _) as [[[a b] c] d].
  rewrite !List.length_app, !le_bytes_length. reflexivity.
Qed.

Lemma digest_range msg : List.Forall (fun b => 0 <= b < 256) (MD5.digest msg).
Proof.
  unfold MD5.digest.
  destruct (MD5.blocks _ _ _) as [[[a b] c] d].
  repeat (apply List.Forall_app; split); apply le_bytes_range.
Qed.

Lemma hex_length bs : String.length (MD5.hex bs) = (2 * List.length bs)%nat.
Proof. induction bs as [|b bs IH]; simpl; [reflexivity | rewrite IH; lia]. Qed.

(** A property of the sixteen digit values is checked value by value. *)
Lemma nibble_ind (P : Z -> Prop) :
  List.Forall P (map Z.of_nat (seq 0 16)) -> forall n, 0 <= n < 16 -> P n.
Proof.
  intros HP n Hn. rewrite List.Forall_forall in HP. apply HP.
  apply in_map_iff. exists (Z.to_nat n). split; [lia | apply in_seq; lia].
Qed.

Lemma hex_value_hex_char n :
  0 <= n < 16 -> Str.hex_value (MD5.hex_char n) = Some n.
Proof.
  revert n. apply nibble_ind. simpl map.
  repeat (constructor; [reflexivity |]). constructor.
Qed.

Lemma hex_hex_string bs :
  List.Forall (fun b => 0 <= b < 256) bs -> hex_string (MD5.hex bs).
Proof.
  induction 1 as [|b bs Hb _ IH]; intros i c Hget; simpl in Hget.
  - destruct i; discriminate.
  - destruct i as [|[|i]].
    + injection Hget as <-. exists (Z.shiftr b 4).
      rewrite Z.shiftr_div_pow2 by lia. change (2 ^ 4) with 16.
      assert (0 <= b / 16 < 16).
      { split; [apply Z.div_pos; lia | apply Z.div_lt_upper_bound; lia]. }
      split; [apply hex_value_hex_char; assumption | lia].
    + injection Hget as <-. exists (Z.land b 15).
      assert (Z.land b 15 = b mod 16) as -> by apply (Z.land_ones b 4 ltac:(lia)).
      pose proof (Z.mod_pos_bound b 16 ltac:(lia)) as Hm.
      split; [apply hex_value_hex_char; assumption | lia].
    + apply (IH i c Hget).
Qed.

Lemma hexdigest_length msg : String.length (MD5.hexdigest msg) = 32%nat.
Proof. unfold MD5.hexdigest. now rewrite hex_length, digest_length. Qed.

Lemma hexdigest_hex_string msg : hex_string (MD5.hexdigest msg).
Proof. apply hex_hex_string, digest_range. Qed.

Lemma get_lt (s : string) : forall i,
  (i < String.length s)%nat -> exists c, String.get i s = Some c.
Proof.
  induction s as [|a s IH]; intros i Hi; simpl in Hi; [lia |].
  destruct i as [|i]; simpl; [eauto |]. apply IH. lia.
Qed.

(** The digest agrees with [hashlib.md5] on one-block and multi-block
    inputs, and on a two-byte UTF-8 character. *)
Example hexdigest_vectors :
  MD5.hexdigest (Str.encode "") = "d41d8cd98f00b204e9800998ecf8427e"
  /\ MD5.hexdigest (Str.encode "abc") = "900150983cd24fb0d6963f7d28e17f72"
  /\ MD5.hexdigest (Str.encode python_text) = "7f7eefa723bb6979875297b8ce266e83"
  /\ MD5.hexdigest (Str.encode (repeat_char 55 "a")) = "ef1772b6dff9a122358552954ad0df65"
  /\ MD5.hexdigest (Str.encode (repeat_char 56 "a")) = "3b0c8ac703f828b04c6c197006d17218"
  /\ MD5.hexdigest (Str.encode (repeat_char 64 "a")) = "014842d480b571495a4a0363793f7367"
  /\ MD5.hexdigest (Str.encode (repeat_char 120 "a")) = "5f61c0ccad4cac44c75ff505e1f1e537"
  /\ MD5.hexdigest (Str.encode (String (ascii_of_nat 233) EmptyString))
     = "66ddcd97cfdeabb2f6fb8a999b4bc76f".
Proof. vm_compute. repeat split. Qed.

(** The sixteen values [k / 15.0] as float32 bit patterns, as NumPy stores
    them. *)
Example float32_fifteenths :
  map (fun k => Float.to_float32 (Float.div64 k 15))
      [0; 1; 2; 3; 4; 5; 6; 7; 8; 9; 10; 11; 12; 13; 14; 15]
  = [ 0x00000000; 0x3d888889; 0x3e088889; 0x3e4ccccd;
      0x3e888889; 0x3eaaaaab; 0x3ecccccd; 0x3eeeeeef;
      0x3f088889; 0x3f19999a; 0x3f2aaaab; 0x3f3bbbbc;
      0x3f4ccccd; 0x3f5dddde; 0x3f6eeeef; 0x3f800000 ].
Proof. vm_compute. reflexivity. Qed.

(** The three boundary patterns on sample lines. *)
Example is_new_unit_samples :
  map SmartChunker.is_new_unit
      ["def foo"; "  class  X"; "def"; "defx y"; "if (x)"; "for  ("; "while x";
       "# note"; "#note"; "  #  "; "import os"]
  = [true; true; false; false; true; true; false; true; false; true; false].
Proof. vm_compute. reflexivity. Qed.

(** [chunk_code] on five lines with a one-line overlap. *)
Example chunk_code_sample :
  map (fun chunk => (DocumentChunk.id chunk, DocumentChunk.content chunk))
      (SmartChunker.chunk_code (SmartChunker.mk 512 1) "d" clock0
         ("import os" +:+ LF +:+ "def f(x):" +:+ LF +:+ "  return x" +:+ LF
          +:+ "def g():" +:+ LF +:+ "  pass"))
  = [ ("d_code_chunk_0", "import os");
      ("d_code_chunk_1", "import os" +:+ LF +:+ "def f(x):" +:+ LF +:+ "  return x");
      ("d_code_chunk_2", "  return x" +:+ LF +:+ "def g():" +:+ LF +:+ "  pass") ].
Proof. vm_compute. reflexivity. Qed.

(** ** ContextManager *)

Section ContextManagerFacts.
Import ContextManager.
Variable self : ContextManager.t.

Lemma count_tokens_nonneg text : 0 <= count_tokens self text.
Proof.
  unfold count_tokens. destruct (tokenizer self); [lia |].
  apply Z.div_pos; lia.
Qed.

Lemma turns_tokens_nonneg l : 0 <= turns_tokens self l.
Proof.
  induction l as [|m l IH]; simpl; [lia |].
  pose proof (count_tokens_nonneg (get_content m)). lia.
Qed.

Lemma turns_tokens_app l1 l2 :
  turns_tokens self (l1 ++ l2) = turns_tokens self l1 + turns_tokens self l2.
Proof. induction l1 as [|m l1 IH]; simpl; [reflexivity | rewrite IH; lia]. Qed.

Lemma turns_tokens_rev l : turns_tokens self (rev l) = turns_tokens self l.
Proof.
  induction l as [|m l IH]; simpl; [reflexivity |].
  rewrite turns_tokens_app, IH. simpl. lia.
Qed.

Lemma turns_tokens_filter f l :
  turns_tokens self (List.filter f l) <= turns_tokens self l.
Proof.
  induction l as [|m l IH]; simpl; [lia |].
  pose proof (count_tokens_nonneg (get_content m)).
  destruct (f m); simpl; lia.
Qed.

Lemma turns_tokens_insert_at i m l :
  turns_tokens self (list_insert_at i m l)
  = count_tokens self (get_content m) + turns_tokens self l.
Proof.
  unfold list_insert_at. rewrite turns_tokens_app. simpl.
  rewrite <- (take_drop i l) at 3. rewrite turns_tokens_app. lia.
Qed.

(** The loop keeps [current_tokens] equal to the sum over the kept turns,
    and never lets it pass the budget. *)
Lemma add_recent_budget msgs : forall truncated current,
  current = turns_tokens self truncated ->
  current <= max_tokens self ->
  let '(truncated', current') := add_recent self msgs truncated current in
  current' = turns_tokens self truncated' /\ current' <= max_tokens self.
Proof.
  induction msgs as [|m msgs IH]; intros truncated current Hsum Hle; simpl.
  - split; assumption.
  - destruct (Z.leb_spec (current + count_tokens self (get_content m)) (max_tokens self)) as [Hfit|Hover].
    + apply IH; [|assumption].
      rewrite turns_tokens_insert_at. lia.
    + split; assumption.
Qed.

(** A system turn that is over budget on its own stops the loop at once. *)
Lemma add_recent_over msgs truncated current :
  max_tokens self < current ->
  add_recent self msgs truncated current = (truncated, current).
Proof.
  intros Hover. destruct msgs as [|m msgs]; simpl; [reflexivity |].
  pose proof (count_tokens_nonneg (get_content m)).
  destruct (Z.leb_spec (current + count_tokens self (get_content m)) (max_tokens self));
    [lia | reflexivity].
Qed.

(** Inserting at position 1 never moves the head. *)
Lemma add_recent_head msgs : forall sys rest current,
  exists rest', fst (add_recent self msgs (sys :: rest) current) = sys :: rest'.
Proof.
  induction msgs as [|m msgs IH]; intros sys rest current; simpl.
  - eauto.
  - destruct (_ <=? _); [|simpl; eauto].
    unfold list_insert_at. simpl. rewrite drop_0. apply IH.
Qed.

Lemma msg_ne_self (m : Message) : msg_ne m m = false.
Proof. unfold msg_ne. rewrite bool_decide_eq_true_2; reflexivity. Qed.

End ContextManagerFacts.

Section FallbackEstimator.
Import ContextManager.
Variable self : ContextManager.t.
Hypothesis no_tokenizer : tokenizer self = None.

Lemma count_tokens_fallback text :
  count_tokens self text = Z.of_nat (String.length text) / 4.
Proof. unfold count_tokens. now rewrite no_tokenizer. Qed.

Lemma total_content_turns_length (messages : list Message) : forall acc,
  Z.of_nat (String.length acc) + 4 * turns_tokens self messages
  <= Z.of_nat (String.length
       (fold_left (fun acc msg => acc +:+ get_content msg +:+ LF) messages acc)).
Proof.
  induction messages as [|m l IH]; intros acc; simpl; [lia |].
  specialize (IH (acc +:+ get_content m +:+ LF)).
  rewrite !string_length_app in IH. rewrite count_tokens_fallback.
  pose proof (Z.mul_div_le (Z.of_nat (String.length (get_content m))) 4).
  change (String.length LF) with 1%nat in IH. lia.
Qed.

Lemma total_content_chunks_length (chunks : list RetrievedResult.t) : forall acc,
  Z.of_nat (String.length acc)
  <= Z.of_nat (String.length
       (fold_left (fun acc chunk => acc +:+ RetrievedResult.content chunk +:+ LF)
                  chunks acc)).
Proof.
  induction chunks as [|c l IH]; intros acc; simpl; [lia |].
  specialize (IH (acc +:+ RetrievedResult.content c +:+ LF)).
  rewrite !string_length_app in IH. change (String.length LF) with 1%nat in IH. lia.
Qed.

(** The per-turn estimates add up to at most the estimate of the text the
    early fit test looks at. *)
Lemma turns_tokens_le_total messages retrieved_chunks :
  turns_tokens self messages
  <= count_tokens self (total_content messages retrieved_chunks).
Proof.
  rewrite count_tokens_fallback. apply Z.div_le_lower_bound; [lia |].
  pose proof (total_content_turns_length messages "") as Hm. simpl in Hm.
  unfold total_content. destruct retrieved_chunks as [chunks|]; [|lia].
  pose proof (total_content_chunks_length chunks
    (fold_left (fun acc msg => acc +:+ get_content msg +:+ LF) messages "")).
  lia.
Qed.

End FallbackEstimator.

Section TruncateContextOrder.
Import ContextManager.
Variable self : ContextManager.t.

(** With a head already in place, the loop leaves the kept turns behind
    the head, the last one kept (the oldest) first. *)
Lemma add_recent_kept msgs : forall head acc current,
  exists kept rest,
    msgs = kept ++ rest /\
    fst (add_recent self msgs (head :: acc) current) = head :: rev kept ++ acc.
Proof.
  induction msgs as [|m msgs IH]; intros head acc current; simpl.
  - exists [], []. split; reflexivity.
  - destruct (_ <=? _).
    + unfold list_insert_at. simpl. rewrite drop_0.
      destruct (IH head (m :: acc) (current + count_tokens self (get_content m)))
        as (kept & rest & -> & ->).
      exists (m :: kept), rest. split; [reflexivity |].
      simpl. now rewrite <- app_assoc.
    + exists [], (m :: msgs). split; reflexivity.
Qed.

Lemma filter_msg_ne_id system_msg (l : list Message) :
  Forall (fun m => m <> system_msg) l -> List.filter (msg_ne system_msg) l = l.
Proof.
  induction 1 as [|m l Hm _ IH]; simpl; [reflexivity |].
  unfold msg_ne at 1. rewrite bool_decide_eq_false_2 by assumption.
  simpl. now rewrite IH.
Qed.

Lemma filter_msg_ne_Forall system_msg (l : list Message) :
  Forall (fun m => m <> system_msg) (List.filter (msg_ne system_msg) l).
Proof.
  apply List.Forall_forall. intros m Hin. apply filter_In in Hin as [_ Hne].
  unfold msg_ne in Hne. apply negb_true_iff in Hne.
  now apply bool_decide_eq_false_1 in Hne.
Qed.

(** What the truncating path returns when a system turn is present: the
    system turn, then a prefix of the REVERSED history, so the most recent
    turn comes second and the oldest preserved turn comes last. *)
Lemma truncate_context_system_order messages retrieved_chunks system_msg :
  max_tokens self < count_tokens self (total_content messages retrieved_chunks) ->
  List.find is_system messages = Some system_msg ->
  exists kept dropped,
    rev (List.filter (msg_ne system_msg) messages) = kept ++ dropped /\
    truncate_context self messages retrieved_chunks = system_msg :: kept.
Proof.
  intros Hover Hfind. unfold truncate_context.
  destruct messages as [|m0 ms]; [discriminate |].
  destruct (Z.leb_spec (count_tokens self (total_content (m0 :: ms) retrieved_chunks))
                       (max_tokens self)); [lia |].
  rewrite Hfind.
  destruct (add_recent_kept (rev (List.filter (msg_ne system_msg) (m0 :: ms)))
              system_msg [] (count_tokens self (get_content system_msg)))
    as (kept & dropped & Hsplit & Hres).
  destruct (add_recent _ _ _ _) as [truncated current]. simpl in Hres. subst truncated.
  exists kept, dropped. split; [assumption |].
  simpl. rewrite msg_ne_self, app_nil_r, filter_rev, filter_msg_ne_id, rev_involutive;
    [reflexivity |].
  pose proof (filter_msg_ne_Forall system_msg (m0 :: ms)) as Hall.
  rewrite <- (rev_involutive (List.filter _ _)) in Hall. rewrite Hsplit in Hall.
  rewrite rev_app_distr in Hall. apply List.Forall_app in Hall as [_ Hall].
  apply List.Forall_forall. intros m Hin. rewrite List.Forall_forall in Hall.
  apply Hall. now apply in_rev in Hin.
Qed.

(** Without a system turn the first insertion lands at position 0 and all
    later ones at position 1: the final reversal leaves the most recent
    turn last but the turns before it newest first. *)
Lemma truncate_context_plain_order messages retrieved_chunks :
  max_tokens self < count_tokens self (total_content messages retrieved_chunks) ->
  List.find is_system messages = None ->
  truncate_context self messages retrieved_chunks = []
  \/ exists newest kept dropped,
       rev messages = newest :: kept ++ dropped /\
       truncate_context self messages retrieved_chunks = kept ++ [newest].
Proof.
  intros Hover Hfind. unfold truncate_context.
  destruct messages as [|m0 ms]; [left; reflexivity |].
  destruct (Z.leb_spec (count_tokens self (total_content (m0 :: ms) retrieved_chunks))
                       (max_tokens self)); [lia |].
  rewrite Hfind.
  destruct (rev (m0 :: ms)) as [|newest older]; [left; reflexivity |].
  simpl. destruct (_ <=? _); [|left; reflexivity].
  right. unfold list_insert_at. simpl.
  destruct (add_recent_kept older newest []
              (0 + count_tokens self (get_content newest)))
    as (kept & dropped & -> & Hres).
  destruct (add_recent _ _ _ _) as [truncated current]. simpl in Hres. subst truncated.
  exists newest, kept, dropped. split; [reflexivity |].
  simpl. now rewrite app_nil_r, rev_involutive.
Qed.

End TruncateContextOrder.

(** ** Claims about truncate_context *)

(** C1. The claim: over budget, the preserved turns come back oldest to
    newest after the system turn.  On the history [sys!, aaaa, bbbb, cccc]
    with a budget of three tokens the code returns [sys!, cccc, bbbb]: the
    two preserved turns are newest first, which is not chronological. *)
Theorem truncate_context_returns_newest_first :
  ContextManager.max_tokens cm3
    < ContextManager.count_tokens cm3 (ContextManager.total_content hist4 None)
  /\ ContextManager.truncate_context cm3 hist4 None
     = [turn "system" "sys!"; turn "user" "cccc"; turn "assistant" "bbbb"]
  /\ chronological_order hist4 (ContextManager.truncate_context cm3 hist4 None) = false
  /\ chronological_order hist4
       [turn "system" "sys!"; turn "assistant" "bbbb"; turn "user" "cccc"] = true.
Proof. split; [|split; [|split]]; decide_by_computation. Qed.

(** The long-history scenario: the system turn and the nineteen most recent
    turns are kept, and they come back as t099, t098, ..., t081. *)
Example truncate_context_hundred_turns :
  ContextManager.truncate_context cm20 hist100 None
  = turn "system" "sys!" :: rev (map numbered_turn (seq 81 19)).
Proof. decide_by_computation. Qed.

(** The same defect without a system turn: five one-token turns, budget
    four.  The four preserved turns come back as [d, c, b, e]. *)
Example truncate_context_plain_scrambled :
  ContextManager.truncate_context (ContextManager.mk 4 None)
    [turn "user" "aaaa"; turn "assistant" "bbbb"; turn "user" "cccc";
     turn "assistant" "dddd"; turn "user" "eeee"] None
  = [turn "assistant" "dddd"; turn "user" "cccc"; turn "assistant" "bbbb";
     turn "user" "eeee"].
Proof. decide_by_computation. Qed.

(** C2. The claim: with the retrieved segments counted toward the budget,
    the output never exceeds it unless a system turn alone does.  The code
    counts the segments when it decides to truncate and forgets them when it
    fills the window.  With a budget of three tokens, the turns
    [aaaa, bbbb, cccc] and one retrieved segment "abcdefgh", the input rates
    six tokens and is truncated, yet every turn is kept: there is no system
    turn, and the output with the segment still rates six tokens by the
    test of the code, five as a sum of separate estimates.  The budget could
    have been met: the segment alone rates two tokens, and the newest turn
    with the segment rates three. *)
Theorem truncate_context_forgets_retrieved_segments :
  let out := ContextManager.truncate_context cm3 turns3 (Some [retrieved1]) in
  ContextManager.max_tokens cm3 = 3
  /\ ContextManager.count_tokens cm3
       (ContextManager.total_content turns3 (Some [retrieved1])) = 6
  /\ out = [turn "assistant" "bbbb"; turn "user" "aaaa"; turn "user" "cccc"]
  /\ List.find ContextManager.is_system turns3 = None
  /\ ContextManager.count_tokens cm3
       (ContextManager.total_content out (Some [retrieved1])) = 6
  /\ ContextManager.turns_tokens cm3 out
     + ContextManager.count_tokens cm3 (RetrievedResult.content retrieved1) = 5
  /\ ContextManager.count_tokens cm3 (RetrievedResult.content retrieved1) = 2
  /\ ContextManager.count_tokens cm3
       (ContextManager.total_content [turn "user" "cccc"] (Some [retrieved1])) = 3.
Proof. cbv zeta. repeat split; decide_by_computation. Qed.

(** Counting the output as joined text fails even without retrieved
    segments: each newline adds a character that no per-turn estimate
    sees. *)
Example truncate_context_joined_text_over_budget :
  ~ (ContextManager.count_tokens cm2
       (ContextManager.total_content
          (ContextManager.truncate_context cm2 hist3 None) None)
     <= ContextManager.max_tokens cm2).
Proof. decide_by_computation. Qed.

(** Whatever the token estimator, with a non-negative budget one of three
    things holds: the input fits as joined text and comes back unchanged;
    or the per-turn estimates of the output fit the budget; or the first
    system turn alone is over budget and is the whole output. *)
Lemma truncate_context_budget_cases
    (self : ContextManager.t) (messages : list Message)
    (retrieved_chunks : option (list RetrievedResult.t)) :
  0 <= ContextManager.max_tokens self ->
  (ContextManager.truncate_context self messages retrieved_chunks = messages
   /\ ContextManager.count_tokens self
        (ContextManager.total_content messages retrieved_chunks)
      <= ContextManager.max_tokens self)
  \/ ContextManager.turns_tokens self
       (ContextManager.truncate_context self messages retrieved_chunks)
     <= ContextManager.max_tokens self
  \/ exists system_msg,
       List.find ContextManager.is_system messages = Some system_msg
       /\ ContextManager.max_tokens self
          < ContextManager.count_tokens self (ContextManager.get_content system_msg)
       /\ ContextManager.truncate_context self messages retrieved_chunks = [system_msg].
Proof.
  intros Hmax. unfold ContextManager.truncate_context.
  destruct messages as [|m0 ms]; [right; left; simpl; lia |].
  destruct (Z.leb_spec
              (ContextManager.count_tokens self
                 (ContextManager.total_content (m0 :: ms) retrieved_chunks))
              (ContextManager.max_tokens self)) as [Hfit|Hover].
  { left. split; [reflexivity | assumption]. }
  right.
  destruct (List.find ContextManager.is_system (m0 :: ms)) as [system_msg|].
  - destruct (Z.lt_ge_cases (ContextManager.max_tokens self)
                (ContextManager.count_tokens self (ContextManager.get_content system_msg)))
      as [Hsys|Hsys].
    + right. exists system_msg. split; [reflexivity |]. split; [assumption |].
      rewrite add_recent_over by assumption.
      simpl. now rewrite msg_ne_self.
    + left.
      pose proof (add_recent_budget self
                    (rev (List.filter (ContextManager.msg_ne system_msg) (m0 :: ms)))
                    [system_msg]
                    (ContextManager.count_tokens self (ContextManager.get_content system_msg)))
        as Hinv.
      destruct (add_recent_head self
                  (rev (List.filter (ContextManager.msg_ne system_msg) (m0 :: ms)))
                  system_msg []
                  (ContextManager.count_tokens self (ContextManager.get_content system_msg)))
        as [rest Hhead].
      destruct (ContextManager.add_recent _ _ _ _) as [truncated current].
      simpl in Hhead. subst truncated.
      destruct Hinv as [Hsum Hle]; [simpl; lia | assumption |].
      simpl. rewrite msg_ne_self, turns_tokens_rev.
      pose proof (turns_tokens_filter self (ContextManager.msg_ne system_msg) rest).
      simpl in Hsum. lia.
  - left.
    pose proof (add_recent_budget self (rev (m0 :: ms)) [] 0) as Hinv.
    destruct (ContextManager.add_recent _ _ _ _) as [truncated current].
    destruct Hinv as [Hsum Hle]; [reflexivity | assumption |].
    rewrite turns_tokens_rev. lia.
Qed.

(** What the code does bound: with the character-based estimator and a
    non-negative budget, the per-turn estimates of the returned turns add up
    to at most [max_tokens], unless the first system-role turn alone is over
    budget, in which case that turn is the whole output.  The retrieved
    segments have no part in it. *)
Lemma truncate_context_turns_within_budget
    (self : ContextManager.t) (messages : list Message)
    (retrieved_chunks : option (list RetrievedResult.t)) :
  ContextManager.tokenizer self = None ->
  0 <= ContextManager.max_tokens self ->
  let out := ContextManager.truncate_context self messages retrieved_chunks in
  ContextManager.turns_tokens self out <= ContextManager.max_tokens self
  \/ exists system_msg,
       List.find ContextManager.is_system messages = Some system_msg
       /\ ContextManager.max_tokens self
          < ContextManager.count_tokens self (ContextManager.get_content system_msg)
       /\ out = [system_msg].
Proof.
  intros Htok Hmax. cbv zeta.
  destruct (truncate_context_budget_cases self messages retrieved_chunks Hmax)
    as [[Hsame Hfit]|[Hsum|Hsys]].
  - left. rewrite Hsame.
    pose proof (turns_tokens_le_total self Htok messages retrieved_chunks). lia.
  - left. assumption.
  - right. assumption.
Qed.

(** C6. The claim: truncating twice equals truncating once.  With a budget
    of two tokens and the three-character turns [aaa, bbb, ccc], one pass
    returns [bbb, aaa, ccc]; that list is still over budget as joined text,
    and the second pass returns [aaa, bbb, ccc]. *)
Theorem truncate_context_second_pass_differs :
  let once := ContextManager.truncate_context cm2 hist3 None in
  once = [turn "assistant" "bbb"; turn "user" "aaa"; turn "user" "ccc"]
  /\ ContextManager.truncate_context cm2 once None = hist3
  /\ ContextManager.truncate_context cm2 once None <> once.
Proof. cbv zeta. split; [|split]; decide_by_computation. Qed.

(** ** BGEEncoder: the fallback path *)

Lemma digit_value_fill text_hash i (embedding : list Z) :
  String.length text_hash = 32%nat ->
  hex_string text_hash ->
  (i < List.length embedding)%nat ->
  BGEEncoder.fill text_hash (Ok embedding) i
  = Ok (<[ i := digit_value text_hash i ]> embedding).
Proof.
  intros Hlen Hhex Hi. unfold BGEEncoder.fill, digit_value. simpl.
  destruct (get_lt text_hash (i mod String.length text_hash)) as [c Hc].
  { rewrite Hlen. apply Nat.mod_upper_bound. discriminate. }
  rewrite Hc. simpl.
  destruct (Hhex _ _ Hc) as (digit & Hdigit & _). rewrite Hdigit. simpl.
  apply Nat.ltb_lt in Hi. now rewrite Hi.
Qed.

(** The loop over [range(n)] writes the first [n] positions and leaves the
    others at [0.0]. *)
Lemma fill_range text_hash dim n :
  String.length text_hash = 32%nat ->
  hex_string text_hash ->
  (n <= dim)%nat ->
  fold_left (BGEEncoder.fill text_hash) (seq 0 n) (Ok (repeat Float.zero dim))
  = Ok (map (digit_value text_hash) (seq 0 n) ++ repeat Float.zero (dim - n)).
Proof.
  intros Hlen Hhex. induction n as [|n IH]; intros Hn.
  - simpl. now rewrite Nat.sub_0_r.
  - rewrite seq_S, fold_left_app, IH by lia. cbn [fold_left Nat.add].
    rewrite digit_value_fill; try assumption.
    + f_equal. rewrite map_app, <- app_assoc. simpl.
      rewrite insert_app_r_alt by (rewrite length_map, length_seq; lia).
      rewrite length_map, length_seq, Nat.sub_diag.
      replace (dim - n)%nat with (S (dim - S n)) by lia. reflexivity.
    + rewrite length_app, length_map, length_seq, repeat_length. lia.
Qed.

(** The fallback encoder never raises, and what it returns for one text is
    [filled_vector]. *)
Lemma fallback_vector_filled cfg text :
  BGEEncoder.fallback_vector cfg text = Ok (filled_vector cfg text).
Proof.
  unfold BGEEncoder.fallback_vector, filled_vector.
  apply fill_range.
  - apply hexdigest_length.
  - apply hexdigest_hex_string.
  - apply Nat.le_min_r.
Qed.

Lemma fallback_encode_from cfg texts : forall embeddings,
  fold_left
    (fun embeddings text =>
       embeddings ← embeddings;
       embedding ← BGEEncoder.fallback_vector cfg text;
       Ok (embeddings ++ [embedding]))
    texts (Ok embeddings)
  = Ok (embeddings ++ map (filled_vector cfg) texts).
Proof.
  induction texts as [|text texts IH]; intros embeddings; simpl.
  - now rewrite app_nil_r.
  - rewrite fallback_vector_filled. simpl. rewrite IH, <- app_assoc. reflexivity.
Qed.

Lemma fallback_encode_map cfg texts :
  BGEEncoder._fallback_encode cfg texts = Ok (map (filled_vector cfg) texts).
Proof. unfold BGEEncoder._fallback_encode. apply fallback_encode_from. Qed.

Lemma filled_vector_length cfg text :
  List.length (filled_vector cfg text) = EMBEDDING_DIM cfg.
Proof.
  unfold filled_vector.
  rewrite length_app, length_map, length_seq, repeat_length. lia.
Qed.

(** Every digit-derived value is a float32 in [0, 1]. *)
Lemma digit_value_unit_interval text_hash i :
  hex_string text_hash ->
  exists q, Float.value (digit_value text_hash i) = Some q /\ (0 <= q <= 1)%Q.
Proof.
  intros Hhex. unfold digit_value.
  destruct (String.get _ _) as [c|] eqn:Hc.
  - destruct (Hhex _ _ Hc) as (digit & Hdigit & Hrange). rewrite Hdigit.
    assert (0 <= digit < 16) as Hdigit16 by lia. clear Hrange Hdigit.
    revert digit Hdigit16. apply nibble_ind. simpl map.
    repeat (constructor;
            [eexists; split; [vm_compute; reflexivity | split; discriminate] |]).
    constructor.
  - eexists; split; [vm_compute; reflexivity | split; discriminate].
Qed.

Lemma repeat_lookup {A} (x : A) n : forall i,
  (i < n)%nat -> repeat x n !! i = Some x.
Proof.
  induction n as [|n IH]; intros i Hi; [lia |].
  destruct i as [|i]; simpl; [reflexivity |]. apply IH. lia.
Qed.

(** Positions from [len(text_hash) = 32] on are never written. *)
Lemma filled_vector_tail cfg text i :
  (32 <= i < EMBEDDING_DIM cfg)%nat ->
  filled_vector cfg text !! i = Some Float.zero.
Proof.
  intros Hi. unfold filled_vector. rewrite hexdigest_length.
  rewrite lookup_app_r by (rewrite length_map, length_seq; lia).
  rewrite length_map, length_seq.
  apply repeat_lookup. lia.
Qed.

(** C7. The fallback encoder returns, for every batch, one vector per text
    in the order of the batch, and the vector at each position is the one
    the text gets when encoded alone: it depends on the string only, so two
    encodings of the same string agree bit for bit. *)
Theorem fallback_encode_deterministic_in_order (cfg : Config) (texts : list string) :
  exists embeddings,
    BGEEncoder._fallback_encode cfg texts = Ok embeddings
    /\ List.length embeddings = List.length texts
    /\ Forall2
         (fun text embedding => BGEEncoder._fallback_encode cfg [text] = Ok [embedding])
         texts embeddings.
Proof.
  exists (map (filled_vector cfg) texts).
  split; [apply fallback_encode_map |].
  split; [apply length_map |].
  induction texts as [|text texts IH]; simpl; constructor; [|exact IH].
  apply fallback_encode_map.
Qed.

(** C8. The claim: every position of the vector holds a digest-derived
    digit, the digits being reused cyclically.  With the default dimension
    384 and the text "abc" (digest 900150983cd24fb0d6963f7d28e17f72) the code
    writes positions 0..31 only: position 32, where the cycle would put the
    first digit 9 again, holds 0.0, and so do all 352 positions from 32
    on. *)
Theorem fallback_vector_leaves_positions_unfilled :
  MD5.hexdigest (Str.encode "abc") = "900150983cd24fb0d6963f7d28e17f72"
  /\ exists embedding,
       BGEEncoder.fallback_vector default_config "abc" = Ok embedding
       /\ List.length embedding = 384%nat
       /\ embedding !! 0%nat = Some (Float.to_float32 (Float.div64 9 15))
       /\ embedding !! 32%nat = Some Float.zero
       /\ digit_value "900150983cd24fb0d6963f7d28e17f72" 32
          = Float.to_float32 (Float.div64 9 15)
       /\ Float.to_float32 (Float.div64 9 15) <> Float.zero
       /\ drop 32 embedding = repeat Float.zero 352.
Proof.
  split; [vm_compute; reflexivity |].
  eexists. split; [vm_compute; reflexivity |].
  vm_compute. repeat split; try reflexivity. discriminate.
Qed.

(** The parts of C8 the code does satisfy, for every text: the digest digits
    give the first [min(32, EMBEDDING_DIM)] values, each a float32 in
    [0, 1]; the other positions stay at 0.0. *)
Lemma fallback_vector_digits (cfg : Config) (text : string) (i : nat) :
  (i < Nat.min 32 (EMBEDDING_DIM cfg))%nat ->
  exists embedding c digit q,
    BGEEncoder.fallback_vector cfg text = Ok embedding
    /\ String.get i (MD5.hexdigest (Str.encode text)) = Some c
    /\ Str.hex_value c = Some digit
    /\ embedding !! i = Some (Float.to_float32 (Float.div64 digit 15))
    /\ Float.value (Float.to_float32 (Float.div64 digit 15)) = Some q
    /\ (0 <= q <= 1)%Q.
Proof.
  intros Hi.
  destruct (get_lt (MD5.hexdigest (Str.encode text)) i) as [c Hc].
  { rewrite hexdigest_length. lia. }
  destruct (hexdigest_hex_string _ _ _ Hc) as (digit & Hdigit & _).
  destruct (digit_value_unit_interval (MD5.hexdigest (Str.encode text)) i
              (hexdigest_hex_string _)) as (q & Hq & Hrange).
  assert (digit_value (MD5.hexdigest (Str.encode text)) i
          = Float.to_float32 (Float.div64 digit 15)) as Hval.
  { unfold digit_value. rewrite hexdigest_length, Nat.mod_small by lia.
    now rewrite Hc, Hdigit. }
  exists (filled_vector cfg text), c, digit, q.
  split; [apply fallback_vector_filled |].
  repeat split; try assumption; try (rewrite <- Hval; assumption); try apply Hrange.
  unfold filled_vector. rewrite hexdigest_length.
  rewrite lookup_app_l by (rewrite length_map, length_seq; lia).
  rewrite list_lookup_fmap, lookup_seq_lt by lia. simpl. now rewrite Hval.
Qed.

(** ** USearchIndex *)

Lemma hex_string_tail c s : hex_string (String c s) -> hex_string s.
Proof. intros Hhex i d Hget. apply (Hhex (S i) d). exact Hget. Qed.

Lemma hex_string_take s : forall n, hex_string s -> hex_string (Str.take n s).
Proof.
  induction s as [|c s IH]; intros n Hhex i d Hget.
  - destruct n; destruct i; discriminate.
  - destruct n as [|n]; [destruct i; discriminate |]. simpl in Hget.
    destruct i as [|i].
    + apply (Hhex 0%nat d). exact Hget.
    + apply (IH n (hex_string_tail _ _ Hhex) i d Hget).
Qed.

Lemma int16_from_hex s : forall acc,
  hex_string s -> exists n, Str.int16_from acc s = Some n.
Proof.
  induction s as [|c s IH]; intros acc Hhex; simpl; [eauto |].
  destruct (Hhex 0%nat c eq_refl) as (digit & -> & _).
  apply IH. exact (hex_string_tail _ _ Hhex).
Qed.

(** The derived key exists for every chunk id: [int] never raises on the
    first sixteen digits of a hexdigest. *)
Lemma index_key_total `{VectorIndex} (cid : string) :
  exists key, USearchIndex.index_key cid = Some key.
Proof.
  unfold USearchIndex.index_key, Str.int16.
  pose proof (hexdigest_length (Str.encode cid)) as Hlen.
  pose proof (hexdigest_hex_string (Str.encode cid)) as Hhex.
  destruct (MD5.hexdigest (Str.encode cid)) as [|c s] eqn:Hd; [discriminate |].
  cbn [Str.take]. rewrite <- Hd in Hhex.
  apply (int16_from_hex (Str.take 16 (String c s)) 0).
  rewrite <- Hd. now apply hex_string_take.
Qed.

Section SearchFacts.
Context `{VectorIndex}.

Lemma find_chunk_id_stored (items : list (string * DocumentChunk.t)) (key : Z) :
  exists found,
    USearchIndex.find_chunk_id items key = Ok found
    /\ forall cid, found = Some cid -> is_Some (dict_get cid items).
Proof.
  induction items as [|[cid chunk] items IH]; simpl.
  - exists None. split; [reflexivity | discriminate].
  - destruct (index_key_total cid) as [k ->]. simpl.
    destruct (k =? key).
    + exists (Some cid). split; [reflexivity |].
      intros ? [= <-]. rewrite String.eqb_refl. eauto.
    + destruct IH as (found & -> & Hfound). exists found.
      split; [reflexivity |]. intros cid' Hcid'.
      destruct (String.eqb cid cid'); [eauto | now apply Hfound].
Qed.

Lemma search_step_stored (self : USearchIndex.t) results entry :
  List.Forall (stored self) results ->
  exists results',
    USearchIndex.search_step self (Ok results) entry = Ok results'
    /\ List.Forall (stored self) results'.
Proof.
  intros Hall. destruct entry as [key distance]. unfold USearchIndex.search_step.
  simpl.
  destruct (find_chunk_id_stored (USearchIndex.document_chunks self) key)
    as (found & -> & Hfound).
  simpl. destruct found as [[|c s]|]; try (exists results; split; [reflexivity | assumption]).
  eexists. split; [reflexivity |].
  apply List.Forall_app. split; [assumption |].
  constructor; [|constructor]. apply Hfound. reflexivity.
Qed.

Lemma search_fold_stored (self : USearchIndex.t) entries : forall results,
  List.Forall (stored self) results ->
  exists results',
    fold_left (USearchIndex.search_step self) entries (Ok results) = Ok results'
    /\ List.Forall (stored self) results'.
Proof.
  induction entries as [|entry entries IH]; intros results Hall; cbn [fold_left].
  - eauto.
  - destruct (search_step_stored self results entry Hall) as (results1 & Hstep & Hall1).
    rewrite Hstep. now apply IH.
Qed.

(** [search] never raises, and each pair it returns names a key of
    [document_chunks]. *)
Lemma search_hits_stored (self : USearchIndex.t) query_embedding k :
  exists results,
    USearchIndex.search self query_embedding k = Ok results
    /\ List.Forall (stored self) results.
Proof.
  unfold USearchIndex.search.
  destruct (Index_len (USearchIndex.index self) =? 0)%nat.
  - exists []. split; [reflexivity | constructor].
  - apply search_fold_stored. constructor.
Qed.

End SearchFacts.

(** C9. Searching an index that holds no vector returns the empty list,
    whatever the query vector and [k]. *)
Theorem search_empty_index `{VectorIndex}
    (self : USearchIndex.t) (query_embedding : list Z) (k : Z) :
  Index_len (USearchIndex.index self) = 0%nat ->
  USearchIndex.search self query_embedding k = Ok [].
Proof. intros Hlen. unfold USearchIndex.search. now rewrite Hlen. Qed.

Lemma search_empty_index_witness :
  Index_len (USearchIndex.index (RAGEngine.vector_index eng0)) = 0%nat
  /\ USearchIndex.search (RAGEngine.vector_index eng0)
       (filled_vector default_config "language") 5 = Ok [].
Proof.
  split; [reflexivity |].
  apply (search_empty_index (RAGEngine.vector_index eng0)
           (filled_vector default_config "language") 5).
  reflexivity.
Defined.

(** ** RAGEngine.retrieve *)

Section RetrieveFacts.
Context `{VectorIndex}.

Lemma hydrate_scores (index : USearchIndex.t) search_results :
  List.Forall (stored index) search_results ->
  map RetrievedResult.score (RAGEngine.hydrate index search_results)
  = map snd search_results.
Proof.
  induction 1 as [|[chunk_id similarity] rest [chunk Hchunk] _ IH]; [reflexivity |].
  unfold RAGEngine.hydrate in *. cbn [omap list_omap]. simpl in Hchunk.
  rewrite Hchunk. cbn. now rewrite IH.
Qed.

Lemma insert_by_score_perm r sorted :
  Permutation (RAGEngine.insert_by_score r sorted) (r :: sorted).
Proof.
  induction sorted as [|x rest IH]; simpl; [reflexivity |].
  destruct (Qle_bool _ _); [|reflexivity].
  rewrite IH. apply perm_swap.
Qed.

Lemma sort_by_score_from results : forall sorted,
  Permutation
    (fold_left (fun sorted r => RAGEngine.insert_by_score r sorted) results sorted)
    (results ++ sorted).
Proof.
  induction results as [|r results IH]; intros sorted; simpl; [reflexivity |].
  rewrite IH, insert_by_score_perm. symmetry. apply Permutation_middle.
Qed.

Lemma sort_by_score_perm results :
  Permutation (RAGEngine.sort_by_score results) results.
Proof.
  unfold RAGEngine.sort_by_score.
  rewrite sort_by_score_from, app_nil_r. reflexivity.
Qed.

End RetrieveFacts.

(** C10. [search] never raises and every pair it returns names a key of
    [document_chunks]; so whenever the encoder yields a vector for the
    query, [retrieve] returns one result per pair of that search, with the
    same scores. *)
Theorem search_hits_stored_and_retrieved `{VectorIndex}
    (cfg : Config) (self : RAGEngine.t) (k : Z) :
  (forall query_embedding,
     exists search_results,
       USearchIndex.search (RAGEngine.vector_index self) query_embedding k
         = Ok search_results
       /\ List.Forall (stored (RAGEngine.vector_index self)) search_results)
  /\ (forall query query_embedding rest,
        BGEEncoder.encode cfg (RAGEngine.encoder self) [query]
          = Ok (query_embedding :: rest) ->
        exists search_results retrieved,
          USearchIndex.search (RAGEngine.vector_index self) query_embedding k
            = Ok search_results
          /\ RAGEngine.retrieve cfg self query k = Ok retrieved
          /\ List.length retrieved = List.length search_results
          /\ Permutation (map RetrievedResult.score retrieved)
                         (map snd search_results)).
Proof.
  split.
  - intros query_embedding. apply search_hits_stored.
  - intros query query_embedding rest Hencode.
    destruct (search_hits_stored (RAGEngine.vector_index self) query_embedding k)
      as (search_results & Hsearch & Hstored).
    exists search_results,
      (RAGEngine.sort_by_score (RAGEngine.hydrate (RAGEngine.vector_index self) search_results)).
    split; [assumption |].
    assert (Permutation
              (map RetrievedResult.score
                 (RAGEngine.sort_by_score
                    (RAGEngine.hydrate (RAGEngine.vector_index self) search_results)))
              (map snd search_results)) as Hperm.
    { rewrite sort_by_score_perm, hydrate_scores by assumption. reflexivity. }
    split; [|split; [|assumption]].
    + unfold RAGEngine.retrieve. rewrite Hencode. simpl. rewrite Hsearch. reflexivity.
    + apply Permutation_length in Hperm. now rewrite !length_map in Hperm.
Qed.

Lemma search_hits_stored_and_retrieved_witness :
  exists search_results retrieved,
    USearchIndex.search (RAGEngine.vector_index eng1)
      (filled_vector default_config "language") 5 = Ok search_results
    /\ RAGEngine.retrieve default_config eng1 "language" 5 = Ok retrieved
    /\ List.length retrieved = List.length search_results
    /\ Permutation (map RetrievedResult.score retrieved) (map snd search_results).
Proof.
  apply (proj2 (search_hits_stored_and_retrieved default_config eng1 5)
           "language" (filled_vector default_config "language") []).
  apply (fallback_encode_map default_config ["language"]).
Defined.

(** On the example engine the search has one hit, and it is hydrated. *)
Example retrieve_example :
  exists r,
    RAGEngine.retrieve default_config eng1 "language" 5 = Ok [r]
    /\ RetrievedResult.chunk_id r = "doc1_chunk_0"
    /\ RetrievedResult.content r = "Python is a language.".
Proof. eexists. vm_compute. repeat split; reflexivity. Qed.

(** ** SmartChunker.chunk_text *)

Lemma lstrip_length s : (String.length (Str.lstrip s) <= String.length s)%nat.
Proof.
  induction s as [|c s IH]; simpl; [lia |].
  destruct (Str.isspace c); simpl; lia.
Qed.

Lemma rstrip_length s : (String.length (Str.rstrip s) <= String.length s)%nat.
Proof.
  induction s as [|c s IH]; simpl; [lia |].
  destruct (Str.rstrip s); [destruct (Str.isspace c)|]; simpl in *; lia.
Qed.

Lemma strip_length s : (String.length (Str.strip s) <= String.length s)%nat.
Proof.
  unfold Str.strip.
  pose proof (rstrip_length (Str.lstrip s)). pose proof (lstrip_length s). lia.
Qed.

Section ChunkTextWithoutOverlap.
Variable self : SmartChunker.t.
Variable document_id : string.
Variable clock : nat -> Z.
Hypothesis no_overlap : SmartChunker.overlap self <= 0.

Lemma text_chunk_ok chunks current_chunk current_sentences :
  Z.of_nat (String.length current_chunk) <= SmartChunker.chunk_size self
  \/ List.length current_sentences = 1%nat ->
  bounded_or_single self
    (SmartChunker.text_chunk document_id clock chunks current_chunk current_sentences).
Proof.
  intros [Hfit|Hone]; [left | right]; simpl.
  - pose proof (strip_length current_chunk). lia.
  - now rewrite Hone.
Qed.

Lemma chunk_text_step_ok st sentence :
  chunking_ok self st ->
  chunking_ok self (SmartChunker.chunk_text_step self document_id clock st sentence).
Proof.
  destruct st as [[chunks current_chunk] current_sentences].
  intros [Hchunks Hcurrent]. unfold SmartChunker.chunk_text_step.
  destruct (Z.leb_spec
              (Z.of_nat (String.length
                 match current_chunk with
                 | EmptyString => sentence
                 | String _ _ => current_chunk +:+ " " +:+ sentence
                 end))
              (SmartChunker.chunk_size self)) as [Hfit|Hover].
  - split; [assumption | right; left; assumption].
  - destruct (Z.ltb_spec 0 (SmartChunker.overlap self)); [lia |].
    split; [|right; right; reflexivity].
    destruct current_sentences as [|s0 rest]; [assumption |].
    apply List.Forall_app. split; [assumption |].
    constructor; [|constructor]. apply text_chunk_ok.
    destruct Hcurrent as [Hnil|Hcurrent]; [discriminate | assumption].
Qed.

Lemma chunk_text_fold_ok sentences : forall st,
  chunking_ok self st ->
  chunking_ok self
    (fold_left (SmartChunker.chunk_text_step self document_id clock) sentences st).
Proof.
  induction sentences as [|sentence sentences IH]; intros st Hst; simpl;
    [assumption | apply IH, chunk_text_step_ok, Hst].
Qed.

(** Without overlap the size bound of C3 holds: every chunk is within
    [chunk_size] or consists of one sentence. *)
Lemma chunk_text_bounded_without_overlap `{SentenceTokenizer} text :
  List.Forall (bounded_or_single self)
    (SmartChunker.chunk_text self document_id clock text).
Proof.
  unfold SmartChunker.chunk_text, SmartChunker.chunk_sentences.
  pose proof (chunk_text_fold_ok (sent_tokenize text) ([], EmptyString, [])) as Hok.
  destruct (fold_left _ _ _) as [[chunks current_chunk] current_sentences].
  destruct Hok as [Hchunks Hcurrent]; [split; [constructor | left; reflexivity] |].
  destruct current_sentences as [|s0 rest]; [assumption |].
  apply List.Forall_app. split; [assumption |].
  constructor; [|constructor]. apply text_chunk_ok.
  destruct Hcurrent as [Hnil|Hcurrent]; [discriminate | assumption].
Qed.

End ChunkTextWithoutOverlap.

(** C3. The claim: a chunk longer than [chunk_size] is a single sentence.
    With the default sizes (512, overlap 64) and a text of three sentences
    of 200 characters, the second chunk holds all three sentences: 602
    characters.  The buffer seeded with the overlap sentences is never
    compared with [chunk_size]; here it is the very [test_chunk] the size
    test has just refused. *)
Theorem chunk_text_overlap_exceeds_chunk_size `{SentenceTokenizer}
    (clock : nat -> Z) (text : string) :
  sent_tokenize text = [sentence_a; sentence_b; sentence_c] ->
  exists first second,
    SmartChunker.chunk_text (SmartChunker.new default_config) "doc" clock text
      = [first; second]
    /\ DocumentChunk.content first = sentence_a +:+ " " +:+ sentence_b
    /\ DocumentChunk.content second = three_sentences
    /\ String.length (DocumentChunk.content second) = 602%nat
    /\ DocumentChunk.metadata second = {[ "sentence_count" := VInt 3 ]}
    /\ ~ bounded_or_single (SmartChunker.new default_config) second
    /\ List.Forall (fun sentence => String.length sentence = 200%nat)
         [sentence_a; sentence_b; sentence_c].
Proof.
  intros Hsplit. unfold SmartChunker.chunk_text. rewrite Hsplit.
  eexists _, _. split; [vm_compute; reflexivity |].
  split; [vm_compute; reflexivity |].
  split; [vm_compute; reflexivity |].
  split; [vm_compute; reflexivity |].
  split; [apply (bool_decide_eq_true_1 _); vm_compute; reflexivity |].
  split.
  - intros [Hfit|Hsingle].
    + vm_compute in Hfit. apply Hfit. reflexivity.
    + apply (bool_decide_eq_false_1
               (({[ "sentence_count" := VInt 3 ]} : gmap string value)
                = {[ "sentence_count" := VInt 1 ]})); [|exact Hsingle].
      vm_compute. reflexivity.
  - repeat constructor.
Qed.

Lemma chunk_text_overlap_exceeds_chunk_size_witness :
  sent_tokenize three_sentences = [sentence_a; sentence_b; sentence_c]
  /\ exists first second,
       SmartChunker.chunk_text (SmartChunker.new default_config) "doc" clock0
         three_sentences = [first; second]
       /\ DocumentChunk.content first = sentence_a +:+ " " +:+ sentence_b
       /\ DocumentChunk.content second = three_sentences
       /\ String.length (DocumentChunk.content second) = 602%nat
       /\ DocumentChunk.metadata second = {[ "sentence_count" := VInt 3 ]}
       /\ ~ bounded_or_single (SmartChunker.new default_config) second
       /\ List.Forall (fun sentence => String.length sentence = 200%nat)
            [sentence_a; sentence_b; sentence_c].
Proof.
  split; [vm_compute; reflexivity |].
  apply (chunk_text_overlap_exceeds_chunk_size clock0 three_sentences).
  vm_compute. reflexivity.
Defined.

(** ** RAGEngine.ingest_document and get_document_summary *)

Lemma is_code_empty : RAGEngine._is_code EmptyString = false.
Proof. vm_compute. reflexivity. Qed.

Lemma is_code_python_text : RAGEngine._is_code python_text = false.
Proof. vm_compute. reflexivity. Qed.

Lemma encode_nil cfg (encoder : BGEEncoder.t) :
  exists embeddings, BGEEncoder.encode cfg encoder [] = Ok embeddings.
Proof.
  unfold BGEEncoder.encode. destruct (BGEEncoder.model encoder) as [run|].
  - destruct (run []); eauto.
  - eauto.
Qed.

(** C4, as stated, fails: on a fresh engine the empty content is accepted,
    the call returns the hash-derived id, and the document store gains an
    entry. *)
Lemma ingest_empty_content_is_accepted :
  exists engine,
    RAGEngine.ingest_document default_config eng0 disk0 EmptyString None None clock0
    = (Ok "doc_d41d8cd98f00", (engine, disk0))
    /\ RAGEngine.vector_index engine = RAGEngine.vector_index eng0
    /\ RAGEngine.documents engine !! "doc_d41d8cd98f00" = Some EmptyString
    /\ RAGEngine.documents eng0 !! "doc_d41d8cd98f00" = None
    /\ RAGEngine.documents engine <> RAGEngine.documents eng0.
Proof.
  eexists. split; [vm_compute; reflexivity |].
  split; [reflexivity |].
  split; [|split]; decide_by_computation.
Qed.

(** C4, amended.  Empty content is ingested without error: the call returns
    the given id, or "doc_d41d8cd98f00" derived from the digest of the empty
    text; it records the empty text under that id in [documents] and
    creates no chunk, so the index, [document_chunks] and the two files on
    disk are as before. *)
Theorem ingest_empty_content `{SentenceTokenizer} `{VectorIndex}
    (cfg : Config) (self : RAGEngine.t) (disk : USearchIndex.files)
    (doc_id : option string) (metadata : option (gmap string value))
    (clock : nat -> Z) :
  sent_tokenize EmptyString = [] ->
  RAGEngine.ingest_document cfg self disk EmptyString doc_id metadata clock
  = (Ok (default "doc_d41d8cd98f00" doc_id),
     (RAGEngine.mk (RAGEngine.chunker self) (RAGEngine.encoder self)
        (RAGEngine.vector_index self) (RAGEngine.context_manager self)
        (<[ default "doc_d41d8cd98f00" doc_id := EmptyString ]>
           (RAGEngine.documents self)),
      disk)).
Proof.
  intros Hsplit. unfold RAGEngine.ingest_document.
  rewrite is_code_empty. cbn [RAGEngine.chunker RAGEngine.encoder
    RAGEngine.vector_index RAGEngine.context_manager RAGEngine.documents].
  unfold SmartChunker.chunk_text. rewrite Hsplit.
  change (SmartChunker.chunk_sentences (RAGEngine.chunker self) _ clock [])
    with (@nil DocumentChunk.t).
  cbn [map].
  destruct (encode_nil cfg (RAGEngine.encoder self)) as [embeddings ->].
  cbn [combine RAGEngine.add_chunks].
  replace ("doc_" +:+ Str.take 12 (MD5.hexdigest (Str.encode EmptyString)))
    with "doc_d41d8cd98f00" by (vm_compute; reflexivity).
  destruct doc_id as [doc_id|]; reflexivity.
Qed.

Lemma ingest_empty_content_witness :
  sent_tokenize EmptyString = []
  /\ RAGEngine.ingest_document default_config eng1 disk0 EmptyString None None clock0
     = (Ok "doc_d41d8cd98f00",
        (RAGEngine.mk (RAGEngine.chunker eng1) (RAGEngine.encoder eng1)
           (RAGEngine.vector_index eng1) (RAGEngine.context_manager eng1)
           (<[ "doc_d41d8cd98f00" := EmptyString ]> (RAGEngine.documents eng1)),
         disk0)).
Proof.
  split; [reflexivity |].
  apply (ingest_empty_content default_config eng1 disk0 None None clock0).
  reflexivity.
Defined.

Lemma chunk_python_text (self : SmartChunker.t) (clock : nat -> Z) :
  SmartChunker.chunk_size self = 512 ->
  SmartChunker.chunk_sentences self "doc1" clock [python_text]
  = [DocumentChunk.mk "doc1_chunk_0" python_text "doc1"
       {[ "sentence_count" := VInt 1 ]} None (clock 0%nat)].
Proof.
  intros Hsize. unfold SmartChunker.chunk_sentences.
  cbn [fold_left SmartChunker.chunk_text_step]. rewrite Hsize.
  reflexivity.
Qed.

Lemma index_key_doc1 `{VectorIndex} :
  USearchIndex.index_key "doc1_chunk_0" = Some 6463851876819298621.
Proof. vm_compute. reflexivity. Qed.

(** C5, as stated, fails: the text has 21 characters, and that is the
    length the summary reports. *)
Lemma summary_length_is_21 :
  exists summary,
    RAGEngine.get_document_summary eng1 "doc1" = Some summary
    /\ RAGEngine.chunk_count summary = 1
    /\ RAGEngine.length summary = 21
    /\ RAGEngine.length summary <> 22.
Proof.
  eexists. split; [vm_compute; reflexivity |].
  split; [reflexivity |]. split; [reflexivity |]. discriminate.
Qed.

(** C5, amended.  On a fresh engine with the default configuration and no
    index file on disk, whenever the sentence splitter keeps the text whole, the encoder yields
    a vector for it and the index accepts it, ingesting
    "Python is a language." as "doc1" succeeds, and the summary of "doc1"
    has [chunk_count = 1] and [length = 21]. *)
Theorem summary_after_ingest `{SentenceTokenizer} `{VectorIndex}
    (encoder : BGEEncoder.t) (tokenizer : option (string -> list Z))
    (metadata : option (gmap string value))
    (clock : nat -> Z) (embedding : list Z) (embeddings : list (list Z))
    (index' : Index) :
  sent_tokenize python_text = [python_text] ->
  BGEEncoder.encode default_config encoder [python_text] = Ok (embedding :: embeddings) ->
  Index_add (Index_new 384) 6463851876819298621 embedding = Some index' ->
  exists engine disk' summary,
    RAGEngine.ingest_document default_config
      (RAGEngine.new default_config encoder tokenizer)
      (USearchIndex.mk_files None None)
      python_text (Some "doc1") metadata clock
    = (Ok "doc1", (engine, disk'))
    /\ RAGEngine.get_document_summary engine "doc1" = Some summary
    /\ RAGEngine.chunk_count summary = 1
    /\ RAGEngine.length summary = 21.
Proof.
  intros Hsplit Hencode Hadd. unfold RAGEngine.ingest_document.
  rewrite is_code_python_text.
  cbn [RAGEngine.new RAGEngine.chunker RAGEngine.encoder
       RAGEngine.vector_index RAGEngine.context_manager RAGEngine.documents].
  unfold SmartChunker.chunk_text. rewrite Hsplit.
  rewrite chunk_python_text by reflexivity.
  cbn [map DocumentChunk.content]. rewrite Hencode.
  cbn [combine RAGEngine.add_chunks]. unfold USearchIndex.add_chunk.
  cbn [DocumentChunk.id USearchIndex.index USearchIndex.document_chunks].
  rewrite index_key_doc1.
  change (Index_new (EMBEDDING_DIM default_config)) with (Index_new 384).
  rewrite Hadd. cbn [dict_set RAGEngine.add_chunks].
  eexists _, _, _. split; [reflexivity |].
  unfold RAGEngine.get_document_summary.
  cbn [RAGEngine.documents RAGEngine.vector_index USearchIndex.document_chunks].
  rewrite lookup_insert_eq.
  split; [reflexivity |]. split; reflexivity.
Qed.

Lemma summary_after_ingest_witness :
  exists engine disk' summary,
    RAGEngine.ingest_document default_config eng0 disk0
      python_text (Some "doc1") None clock0
    = (Ok "doc1", (engine, disk'))
    /\ RAGEngine.get_document_summary engine "doc1" = Some summary
    /\ RAGEngine.chunk_count summary = 1
    /\ RAGEngine.length summary = 21.
Proof.
  apply (@summary_after_ingest simple_tokenizer list_index
           (BGEEncoder.mk None) None None clock0
           (filled_vector default_config python_text) []
           [(6463851876819298621, filled_vector default_config python_text)]).
  - vm_compute. reflexivity.
  - apply (fallback_encode_map default_config [python_text]).
  - reflexivity.
Defined.

(** * Further properties of the module *)

(** ** ContextManager.truncate_context: what is kept *)

Section TruncateContextWindow.
Import ContextManager.
Variable self : ContextManager.t.

Lemma list_insert_at_In {A} (i : nat) (x y : A) (l : list A) :
  In y (list_insert_at i x l) -> y = x \/ In y l.
Proof.
  unfold list_insert_at. intros Hin. apply in_app_or in Hin as [Hin|[Heq|Hin]].
  - right. rewrite <- (take_drop i l). apply in_or_app. now left.
  - now left.
  - right. rewrite <- (take_drop i l). apply in_or_app. now right.
Qed.

Lemma add_recent_In msgs : forall truncated current m,
  In m (fst (add_recent self msgs truncated current)) ->
  In m truncated \/ In m msgs.
Proof.
  induction msgs as [|msg msgs IH]; intros truncated current m; simpl.
  - now left.
  - destruct (_ <=? _); simpl; [|now left].
    intros Hin. apply IH in Hin as [Hin|Hin]; [|now right; right].
    apply list_insert_at_In in Hin as [->|Hin]; [right; now left | now left].
Qed.

(** The loop keeps the longest run of recent turns that fits: the result,
    the running total, and the first turn left out (if any) is the one that
    would have passed the budget. *)
Lemma add_recent_window msgs : forall head acc current,
  exists kept rest,
    msgs = kept ++ rest
    /\ add_recent self msgs (head :: acc) current
       = (head :: rev kept ++ acc, current + turns_tokens self kept)
    /\ match rest with
       | [] => True
       | next :: _ =>
           max_tokens self
           < current + turns_tokens self kept + count_tokens self (get_content next)
       end.
Proof.
  induction msgs as [|m msgs IH]; intros head acc current; simpl.
  - exists [], []. simpl. repeat split. f_equal. lia.
  - destruct (Z.leb_spec (current + count_tokens self (get_content m)) (max_tokens self))
      as [Hfit|Hover].
    + unfold list_insert_at. simpl. rewrite drop_0.
      destruct (IH head (m :: acc) (current + count_tokens self (get_content m)))
        as (kept & rest & -> & -> & Hnext).
      exists (m :: kept), rest. split; [reflexivity |]. split.
      * simpl. rewrite <- app_assoc. simpl. f_equal. lia.
      * destruct rest; [exact I |]. simpl. lia.
    + exists [], (m :: msgs). simpl. repeat split; [f_equal; lia | lia].
Qed.

(** The same window, with the bound it keeps: whatever the loop adds fits
    the budget together with what was counted before. *)
Lemma add_recent_window_fits msgs : forall head acc current,
  exists kept rest,
    msgs = kept ++ rest
    /\ add_recent self msgs (head :: acc) current
       = (head :: rev kept ++ acc, current + turns_tokens self kept)
    /\ (kept = [] \/ current + turns_tokens self kept <= max_tokens self)
    /\ match rest with
       | [] => True
       | next :: _ =>
           max_tokens self
           < current + turns_tokens self kept + count_tokens self (get_content next)
       end.
Proof.
  induction msgs as [|m msgs IH]; intros head acc current; simpl.
  - exists [], []. simpl. split; [reflexivity |]. split; [f_equal; lia |].
    split; [now left | exact I].
  - destruct (Z.leb_spec (current + count_tokens self (get_content m)) (max_tokens self))
      as [Hfit|Hover].
    + unfold list_insert_at. simpl. rewrite drop_0.
      destruct (IH head (m :: acc) (current + count_tokens self (get_content m)))
        as (kept & rest & -> & -> & Hfits & Hnext).
      exists (m :: kept), rest. split; [reflexivity |]. split; [|split].
      * simpl. rewrite <- app_assoc. simpl. f_equal. lia.
      * right. destruct Hfits as [->|Hfits]; simpl; lia.
      * destruct rest; [exact I |]. simpl. lia.
    + exists [], (m :: msgs). simpl. split; [reflexivity |]. split; [f_equal; lia |].
      split; [now left | lia].
Qed.

End TruncateContextWindow.

(** X1. Truncation never invents or alters a turn: every turn of the output
    is a turn of the input. *)
Theorem truncate_context_incl (self : ContextManager.t) (messages : list Message)
    (retrieved_chunks : option (list RetrievedResult.t)) :
  incl (ContextManager.truncate_context self messages retrieved_chunks) messages.
Proof.
  unfold ContextManager.truncate_context.
  destruct messages as [|m0 ms]; [apply incl_refl |].
  destruct (_ <=? _); [apply incl_refl |].
  destruct (List.find ContextManager.is_system (m0 :: ms)) as [system_msg|] eqn:Hfind.
  - apply find_some in Hfind as [Hsys _].
    pose proof (add_recent_In self
                  (rev (List.filter (ContextManager.msg_ne system_msg) (m0 :: ms)))
                  [system_msg]
                  (ContextManager.count_tokens self (ContextManager.get_content system_msg)))
      as Hin.
    destruct (ContextManager.add_recent _ _ _ _) as [truncated current].
    cbn [fst] in Hin.
    intros m [<-|Hm]; [assumption |]. cbn [app] in Hm.
    rewrite <- in_rev in Hm. apply filter_In in Hm as [Hm _].
    apply Hin in Hm as [[<-|[]]|Hm]; [assumption |].
    rewrite <- in_rev in Hm. now apply filter_In in Hm as [Hm _].
  - pose proof (add_recent_In self (rev (m0 :: ms)) [] 0) as Hin.
    destruct (ContextManager.add_recent _ _ _ _) as [truncated current].
    cbn [fst] in Hin.
    intros m Hm. rewrite <- in_rev in Hm.
    apply Hin in Hm as [[]|Hm]. now rewrite <- in_rev in Hm.
Qed.

(** X2. Over budget with a system turn: the output is the system turn
    followed by the most recent other turns, newest first, as many as fit
    the budget together with the system turn: the turns kept and the system
    turn are within the budget, and the first turn dropped is one that did
    not fit.  Copies of the system turn are left out. *)
Theorem truncate_context_system_window (self : ContextManager.t)
    (messages : list Message) (retrieved_chunks : option (list RetrievedResult.t))
    (system_msg : Message) :
  ContextManager.max_tokens self
    < ContextManager.count_tokens self
        (ContextManager.total_content messages retrieved_chunks) ->
  List.find ContextManager.is_system messages = Some system_msg ->
  exists kept dropped,
    rev (List.filter (ContextManager.msg_ne system_msg) messages) = kept ++ dropped
    /\ ContextManager.truncate_context self messages retrieved_chunks
       = system_msg :: kept
    /\ ~ In system_msg kept
    /\ (kept = []
        \/ ContextManager.count_tokens self (ContextManager.get_content system_msg)
           + ContextManager.turns_tokens self kept
           <= ContextManager.max_tokens self)
    /\ match dropped with
       | [] => True
       | next :: _ =>
           ContextManager.max_tokens self
           < ContextManager.count_tokens self (ContextManager.get_content system_msg)
             + ContextManager.turns_tokens self kept
             + ContextManager.count_tokens self (ContextManager.get_content next)
       end.
Proof.
  intros Hover Hfind. unfold ContextManager.truncate_context.
  destruct messages as [|m0 ms]; [discriminate |].
  destruct (Z.leb_spec
              (ContextManager.count_tokens self
                 (ContextManager.total_content (m0 :: ms) retrieved_chunks))
              (ContextManager.max_tokens self)); [lia |].
  rewrite Hfind.
  destruct (add_recent_window_fits self
              (rev (List.filter (ContextManager.msg_ne system_msg) (m0 :: ms)))
              system_msg []
              (ContextManager.count_tokens self (ContextManager.get_content system_msg)))
    as (kept & dropped & Hsplit & -> & Hfits & Hnext).
  assert (List.Forall (fun m => m <> system_msg) kept) as Hkept.
  { pose proof (filter_msg_ne_Forall system_msg (m0 :: ms)) as Hall.
    rewrite <- (rev_involutive (List.filter _ _)) in Hall. rewrite Hsplit in Hall.
    rewrite rev_app_distr in Hall. apply List.Forall_app in Hall as [_ Hall].
    apply List.Forall_forall. intros m Hin. rewrite List.Forall_forall in Hall.
    apply Hall. now apply in_rev in Hin. }
  exists kept, dropped. split; [assumption |]. split.
  - simpl. rewrite msg_ne_self, app_nil_r, filter_rev, filter_msg_ne_id, rev_involutive;
      [reflexivity | exact Hkept].
  - split; [|split; [exact Hfits | exact Hnext]].
    intros Hin. rewrite List.Forall_forall in Hkept. now apply (Hkept _ Hin).
Qed.

Lemma truncate_context_system_window_witness :
  exists kept dropped,
    rev (List.filter (ContextManager.msg_ne (turn "system" "sys!")) hist4)
      = kept ++ dropped
    /\ ContextManager.truncate_context cm3 hist4 None = turn "system" "sys!" :: kept
    /\ ~ In (turn "system" "sys!") kept
    /\ (kept = []
        \/ ContextManager.count_tokens cm3
             (ContextManager.get_content (turn "system" "sys!"))
           + ContextManager.turns_tokens cm3 kept
           <= ContextManager.max_tokens cm3)
    /\ match dropped with
       | [] => True
       | next :: _ =>
           ContextManager.max_tokens cm3
           < ContextManager.count_tokens cm3
               (ContextManager.get_content (turn "system" "sys!"))
             + ContextManager.turns_tokens cm3 kept
             + ContextManager.count_tokens cm3 (ContextManager.get_content next)
       end.
Proof.
  apply (truncate_context_system_window cm3 hist4 None (turn "system" "sys!"));
    decide_by_computation.
Defined.

(** X3. Over budget without a system turn: nothing is returned when the
    most recent turn alone is over budget; otherwise the output ends with
    the most recent turn, preceded by the turns before it newest first, as
    many as fit. *)
Theorem truncate_context_plain_window (self : ContextManager.t)
    (messages : list Message) (retrieved_chunks : option (list RetrievedResult.t)) :
  ContextManager.max_tokens self
    < ContextManager.count_tokens self
        (ContextManager.total_content messages retrieved_chunks) ->
  List.find ContextManager.is_system messages = None ->
  messages = []
  \/ (exists newest older,
        rev messages = newest :: older
        /\ ContextManager.max_tokens self
           < ContextManager.count_tokens self (ContextManager.get_content newest)
        /\ ContextManager.truncate_context self messages retrieved_chunks = [])
  \/ (exists newest kept dropped,
        rev messages = newest :: kept ++ dropped
        /\ ContextManager.truncate_context self messages retrieved_chunks
           = kept ++ [newest]
        /\ ContextManager.turns_tokens self (newest :: kept)
           <= ContextManager.max_tokens self
        /\ match dropped with
           | [] => True
           | next :: _ =>
               ContextManager.max_tokens self
               < ContextManager.turns_tokens self (newest :: kept)
                 + ContextManager.count_tokens self (ContextManager.get_content next)
           end).
Proof.
  intros Hover Hfind. unfold ContextManager.truncate_context.
  destruct messages as [|m0 ms]; [left; reflexivity |]. right.
  destruct (Z.leb_spec
              (ContextManager.count_tokens self
                 (ContextManager.total_content (m0 :: ms) retrieved_chunks))
              (ContextManager.max_tokens self)); [lia |].
  rewrite Hfind.
  destruct (rev (m0 :: ms)) as [|newest older] eqn:Hrev.
  { apply (f_equal (@List.length _)) in Hrev. rewrite length_rev in Hrev. discriminate. }
  cbn [ContextManager.add_recent].
  destruct (Z.leb_spec
              (0 + ContextManager.count_tokens self (ContextManager.get_content newest))
              (ContextManager.max_tokens self)) as [Hfit|Hnofit].
  - right. unfold list_insert_at. simpl take. simpl drop. simpl app.
    destruct (add_recent_window self older newest []
                (0 + ContextManager.count_tokens self (ContextManager.get_content newest)))
      as (kept & dropped & -> & Hres & Hnext).
    pose proof (add_recent_budget self (kept ++ dropped) [newest]
                  (0 + ContextManager.count_tokens self (ContextManager.get_content newest)))
      as Hinv.
    rewrite Hres in *. destruct Hinv as [Hsum Hle]; [simpl; lia | assumption |].
    exists newest, kept, dropped. split; [reflexivity |]. split.
    + simpl. now rewrite app_nil_r, rev_involutive.
    + simpl. split; [lia |]. destruct dropped; [exact I | lia].
  - left. exists newest, older. split; [reflexivity |]. split; [lia | reflexivity].
Qed.

Lemma truncate_context_plain_window_witness :
  hist3 = []
  \/ (exists newest older,
        rev hist3 = newest :: older
        /\ ContextManager.max_tokens cm2
           < ContextManager.count_tokens cm2 (ContextManager.get_content newest)
        /\ ContextManager.truncate_context cm2 hist3 None = [])
  \/ (exists newest kept dropped,
        rev hist3 = newest :: kept ++ dropped
        /\ ContextManager.truncate_context cm2 hist3 None = kept ++ [newest]
        /\ ContextManager.turns_tokens cm2 (newest :: kept)
           <= ContextManager.max_tokens cm2
        /\ match dropped with
           | [] => True
           | next :: _ =>
               ContextManager.max_tokens cm2
               < ContextManager.turns_tokens cm2 (newest :: kept)
                 + ContextManager.count_tokens cm2 (ContextManager.get_content next)
           end).
Proof.
  apply (truncate_context_plain_window cm2 hist3 None); decide_by_computation.
Defined.

(** X4. Whatever the token estimator, with a non-negative budget either the
    input fits as joined text and comes back unchanged, or the per-turn
    estimates of the output fit the budget, or the first system turn alone
    is over budget and is the whole output. *)
Theorem truncate_context_budget_any_estimator
    (self : ContextManager.t) (messages : list Message)
    (retrieved_chunks : option (list RetrievedResult.t)) :
  0 <= ContextManager.max_tokens self ->
  (ContextManager.truncate_context self messages retrieved_chunks = messages
   /\ ContextManager.count_tokens self
        (ContextManager.total_content messages retrieved_chunks)
      <= ContextManager.max_tokens self)
  \/ ContextManager.turns_tokens self
       (ContextManager.truncate_context self messages retrieved_chunks)
     <= ContextManager.max_tokens self
  \/ exists system_msg,
       List.find ContextManager.is_system messages = Some system_msg
       /\ ContextManager.max_tokens self
          < ContextManager.count_tokens self (ContextManager.get_content system_msg)
       /\ ContextManager.truncate_context self messages retrieved_chunks = [system_msg].
Proof. apply truncate_context_budget_cases. Qed.

Lemma truncate_context_budget_any_estimator_witness :
  (ContextManager.truncate_context cm_chars hist4 None = hist4
   /\ ContextManager.count_tokens cm_chars (ContextManager.total_content hist4 None)
      <= ContextManager.max_tokens cm_chars)
  \/ ContextManager.turns_tokens cm_chars
       (ContextManager.truncate_context cm_chars hist4 None)
     <= ContextManager.max_tokens cm_chars
  \/ exists system_msg,
       List.find ContextManager.is_system hist4 = Some system_msg
       /\ ContextManager.max_tokens cm_chars
          < ContextManager.count_tokens cm_chars (ContextManager.get_content system_msg)
       /\ ContextManager.truncate_context cm_chars hist4 None = [system_msg].
Proof.
  apply (truncate_context_budget_any_estimator cm_chars hist4 None). simpl. lia.
Defined.

(** ** SmartChunker.chunk_text: numbering and count *)

Lemma to_uint_not_nil n : Nat.to_uint n <> Decimal.Nil.
Proof.
  rewrite <- (Unsigned.of_to n), Unsigned.to_of. unfold Decimal.unorm.
  destruct (Decimal.nzhead _); discriminate.
Qed.

Lemma of_nat_inj n m : Str.of_nat n = Str.of_nat m -> n = m.
Proof.
  unfold Str.of_nat. intros Heq. apply Unsigned.to_uint_inj.
  pose proof (NilZero.usu _ (to_uint_not_nil n)) as Hn.
  pose proof (NilZero.usu _ (to_uint_not_nil m)) as Hm.
  rewrite Heq in Hn. congruence.
Qed.

Lemma numbered_nil infix document_id : numbered infix document_id [].
Proof. intros i chunk Hi. destruct i; discriminate. Qed.

Lemma numbered_snoc infix document_id chunks chunk :
  numbered infix document_id chunks ->
  DocumentChunk.id chunk = document_id +:+ infix +:+ Str.of_nat (List.length chunks) ->
  DocumentChunk.document_id chunk = document_id ->
  numbered infix document_id (chunks ++ [chunk]).
Proof.
  intros Hchunks Hid Hdoc i c Hi.
  destruct (Nat.lt_ge_cases i (List.length chunks)) as [Hlt|Hge].
  - rewrite lookup_app_l in Hi by assumption. now apply Hchunks.
  - rewrite lookup_app_r in Hi by assumption.
    destruct (i - List.length chunks)%nat as [|j] eqn:Hj; [|destruct j; discriminate].
    injection Hi as <-. replace i with (List.length chunks) by lia. now split.
Qed.

(** Ids built from distinct ordinals are distinct. *)
Lemma numbered_NoDup infix document_id chunks :
  numbered infix document_id chunks -> List.NoDup (map DocumentChunk.id chunks).
Proof.
  intros Hnum. apply NoDup_ListNoDup, NoDup_alt. intros i j cid Hi Hj.
  rewrite list_lookup_fmap in Hi, Hj.
  destruct (chunks !! i) as [ci|] eqn:Hci; [|discriminate].
  destruct (chunks !! j) as [cj|] eqn:Hcj; [|discriminate].
  injection Hi as Hi. injection Hj as Hj.
  destruct (Hnum _ _ Hci) as [Hidi _]. destruct (Hnum _ _ Hcj) as [Hidj _].
  rewrite Hidi in Hi. rewrite Hidj in Hj. rewrite <- Hj in Hi.
  apply String.app_inj in Hi. apply String.app_inj in Hi. now apply of_nat_inj.
Qed.

Section ChunkTextShape.
Variable self : SmartChunker.t.
Variable document_id : string.
Variable clock : nat -> Z.

Lemma chunk_text_step_numbered st sentence :
  numbered "_chunk_" document_id (fst (fst st)) ->
  numbered "_chunk_" document_id
    (fst (fst (SmartChunker.chunk_text_step self document_id clock st sentence))).
Proof.
  destruct st as [[chunks current_chunk] current_sentences]. cbn [fst].
  intros Hnum. unfold SmartChunker.chunk_text_step.
  destruct (_ <=? _); [exact Hnum |].
  assert (numbered "_chunk_" document_id
            match current_sentences with
            | [] => chunks
            | _ :: _ =>
                chunks ++ [SmartChunker.text_chunk document_id clock chunks
                             current_chunk current_sentences]
            end) as Hnum'.
  { destruct current_sentences; [exact Hnum |].
    apply numbered_snoc; [exact Hnum | reflexivity | reflexivity]. }
  destruct (0 <? SmartChunker.overlap self); exact Hnum'.
Qed.

Lemma chunk_text_fold_numbered sentences : forall st,
  numbered "_chunk_" document_id (fst (fst st)) ->
  numbered "_chunk_" document_id
    (fst (fst (fold_left (SmartChunker.chunk_text_step self document_id clock)
                 sentences st))).
Proof.
  induction sentences as [|sentence sentences IH]; intros st Hst; simpl;
    [assumption | apply IH, chunk_text_step_numbered, Hst].
Qed.

Lemma chunk_sentences_numbered sentences :
  numbered "_chunk_" document_id
    (SmartChunker.chunk_sentences self document_id clock sentences).
Proof.
  unfold SmartChunker.chunk_sentences.
  pose proof (chunk_text_fold_numbered sentences ([], EmptyString, [])
                (numbered_nil _ _)) as Hnum.
  destruct (fold_left _ _ _) as [[chunks current_chunk] current_sentences].
  cbn [fst] in Hnum. destruct current_sentences; [exact Hnum |].
  apply numbered_snoc; [exact Hnum | reflexivity | reflexivity].
Qed.

Lemma chunk_text_step_progress n st sentence :
  text_progress n st ->
  text_progress (S n) (SmartChunker.chunk_text_step self document_id clock st sentence).
Proof.
  destruct st as [[chunks current_chunk] current_sentences].
  unfold text_progress, SmartChunker.chunk_text_step. intros Hst.
  destruct (_ <=? _).
  - split; [intros Heq; now apply app_eq_nil in Heq as [_ Heq] |].
    destruct n; [destruct Hst as [-> _]; simpl; lia | destruct Hst; lia].
  - assert ((List.length
               match current_sentences with
               | [] => chunks
               | _ :: _ =>
                   chunks ++ [SmartChunker.text_chunk document_id clock chunks
                                current_chunk current_sentences]
               end < S n)%nat) as Hlen.
    { destruct n.
      - destruct Hst as [-> ->]. simpl. lia.
      - destruct Hst as [_ Hlen]. destruct current_sentences; [lia |].
        rewrite length_app. simpl. lia. }
    destruct (0 <? SmartChunker.overlap self); (split; [|exact Hlen]).
    + intros Heq. now apply app_eq_nil in Heq as [_ Heq].
    + discriminate.
Qed.

Lemma chunk_text_fold_progress sentences : forall n st,
  text_progress n st ->
  text_progress (n + List.length sentences)
    (fold_left (SmartChunker.chunk_text_step self document_id clock) sentences st).
Proof.
  induction sentences as [|sentence sentences IH]; intros n st Hst; simpl.
  - now rewrite Nat.add_0_r.
  - rewrite <- Nat.add_succ_comm. apply IH, chunk_text_step_progress, Hst.
Qed.

Lemma chunk_sentences_count sentences :
  (List.length (SmartChunker.chunk_sentences self document_id clock sentences)
   <= List.length sentences)%nat
  /\ (SmartChunker.chunk_sentences self document_id clock sentences = []
      <-> sentences = []).
Proof.
  unfold SmartChunker.chunk_sentences.
  pose proof (chunk_text_fold_progress sentences 0 ([], EmptyString, [])
                (conj eq_refl eq_refl)) as Hst.
  destruct (fold_left _ _ _) as [[chunks current_chunk] current_sentences].
  simpl in Hst. destruct sentences as [|s0 rest]; simpl in Hst.
  - destruct Hst as [-> ->]. split; [simpl; lia | tauto].
  - destruct Hst as [Hne Hlen]. destruct current_sentences; [contradiction |].
    rewrite length_app. simpl. split; [lia |].
    split; [|discriminate]. intros Heq. now apply app_eq_nil in Heq as [_ Heq].
Qed.

End ChunkTextShape.

(** X5. Without overlap ([overlap <= 0]) every chunk of [chunk_text] is
    within [chunk_size] or holds a single sentence. *)
Theorem chunk_text_size_bound_without_overlap `{SentenceTokenizer}
    (self : SmartChunker.t) (document_id : string) (clock : nat -> Z)
    (text : string) :
  SmartChunker.overlap self <= 0 ->
  List.Forall (bounded_or_single self)
    (SmartChunker.chunk_text self document_id clock text).
Proof.
  intros Hoverlap. now apply chunk_text_bounded_without_overlap.
Qed.

Lemma chunk_text_size_bound_without_overlap_witness :
  List.Forall (bounded_or_single (SmartChunker.mk 512 0))
    (SmartChunker.chunk_text (SmartChunker.mk 512 0) "doc" clock0 three_sentences).
Proof.
  apply (chunk_text_size_bound_without_overlap (SmartChunker.mk 512 0) "doc" clock0
           three_sentences).
  simpl. lia.
Defined.

(** X6. The chunks of [chunk_text] are numbered in order: the chunk at
    position [i] has id [document_id + "_chunk_" + str(i)] and carries the
    document id; so no two chunks of a call share an id. *)
Theorem chunk_text_ids `{SentenceTokenizer}
    (self : SmartChunker.t) (document_id : string) (clock : nat -> Z)
    (text : string) :
  numbered "_chunk_" document_id (SmartChunker.chunk_text self document_id clock text)
  /\ List.NoDup
       (map DocumentChunk.id (SmartChunker.chunk_text self document_id clock text)).
Proof.
  pose proof (chunk_sentences_numbered self document_id clock (sent_tokenize text)) as Hnum.
  split; [exact Hnum | exact (numbered_NoDup _ _ _ Hnum)].
Qed.

(** X7. [chunk_text] returns at most one chunk per sentence, and returns no
    chunk exactly when the splitter finds no sentence. *)
Theorem chunk_text_count `{SentenceTokenizer}
    (self : SmartChunker.t) (document_id : string) (clock : nat -> Z)
    (text : string) :
  (List.length (SmartChunker.chunk_text self document_id clock text)
   <= List.length (sent_tokenize text))%nat
  /\ (SmartChunker.chunk_text self document_id clock text = []
      <-> sent_tokenize text = []).
Proof. apply chunk_sentences_count. Qed.

(** ** SmartChunker.chunk_code: line ranges *)

Section ChunkCodeShape.
Variable self : SmartChunker.t.
Variable document_id : string.
Variable clock : nat -> Z.
Variable code : string.

Lemma emit_code_chunk_ok chunks (a b : nat) :
  (a <= b < List.length (Str.split_lines code))%nat ->
  List.Forall (code_chunk_ok code) chunks ->
  numbered "_code_chunk_" document_id chunks ->
  List.Forall (code_chunk_ok code)
    (SmartChunker.emit_code_chunk document_id clock code chunks
       (take (b + 1 - a) (drop a (Str.split_lines code))) (Z.of_nat a) (Z.of_nat b))
  /\ numbered "_code_chunk_" document_id
       (SmartChunker.emit_code_chunk document_id clock code chunks
          (take (b + 1 - a) (drop a (Str.split_lines code))) (Z.of_nat a) (Z.of_nat b)).
Proof.
  intros Hrange Hok Hnum. unfold SmartChunker.emit_code_chunk.
  destruct (Nat.ltb_spec 0
              (String.length
                 (Str.strip (Str.join LF (take (b + 1 - a) (drop a (Str.split_lines code)))))))
    as [Hblank|Hblank]; [|split; assumption].
  split.
  - apply List.Forall_app. split; [assumption |]. constructor; [|constructor].
    exists a, b. split; [exact Hrange |]. cbn [SmartChunker.code_chunk
      DocumentChunk.metadata DocumentChunk.content].
    split; [now rewrite lookup_insert_eq |].
    split; [rewrite lookup_insert_ne by discriminate; now rewrite lookup_insert_eq |].
    split; [do 2 (rewrite lookup_insert_ne by discriminate);
            now rewrite lookup_singleton_eq |].
    split; [reflexivity |].
    intros Hempty. rewrite Hempty in Hblank. simpl in Hblank. lia.
  - apply numbered_snoc; [assumption | reflexivity | reflexivity].
Qed.

Lemma chunk_code_step_progress k line st :
  Str.split_lines code !! k = Some line ->
  code_progress code document_id k st ->
  code_progress code document_id (S k)
    (SmartChunker.chunk_code_step self document_id clock code
       (Str.split_lines code) st (k, line)).
Proof.
  intros Hline. destruct st as [[chunks current_chunk] chunk_start_line].
  intros (a & -> & Hak & -> & Hok & Hnum).
  pose proof (lookup_lt_Some _ _ _ Hline) as Hk.
  unfold SmartChunker.chunk_code_step.
  destruct (SmartChunker.is_new_unit line
            && (0 <? List.length (take (k - a) (drop a (Str.split_lines code))))%nat)
    eqn:Hunit.
  - apply andb_prop in Hunit as [_ Hlen]. apply Nat.ltb_lt in Hlen.
    rewrite length_take in Hlen.
    assert (a <= k - 1 < List.length (Str.split_lines code))%nat as Hrange by lia.
    destruct (emit_code_chunk_ok chunks a (k - 1) Hrange Hok Hnum) as [Hok' Hnum'].
    replace (k - 1 + 1 - a)%nat with (k - a)%nat in Hok', Hnum' by lia.
    replace (Z.of_nat (k - 1)) with (Z.of_nat k - 1) in Hok', Hnum' by lia.
    destruct (Z.ltb_spec 0 (SmartChunker.overlap self)) as [Hoverlap|Hoverlap].
    + exists (Z.to_nat (Z.max 0 (Z.of_nat k - SmartChunker.overlap self))).
      split; [reflexivity |]. split; [lia |].
      split; [f_equal; lia |]. split; assumption.
    + exists k. split; [reflexivity |]. split; [lia |].
      split; [|split; assumption].
      replace (S k - k)%nat with 1%nat by lia.
      rewrite (drop_S _ _ _ Hline). reflexivity.
  - exists a. split; [reflexivity |]. split; [lia |]. split; [|split; assumption].
    replace (S k - a)%nat with (S (k - a)) by lia.
    symmetry. apply take_S_r. rewrite lookup_drop.
    replace (a + (k - a))%nat with k by lia. exact Hline.
Qed.

Lemma chunk_code_fold_progress rest : forall done st,
  Str.split_lines code = done ++ rest ->
  code_progress code document_id (List.length done) st ->
  code_progress code document_id (List.length (Str.split_lines code))
    (fold_left
       (SmartChunker.chunk_code_step self document_id clock code (Str.split_lines code))
       (combine (seq (List.length done) (List.length rest)) rest) st).
Proof.
  induction rest as [|line rest IH]; intros done st Hsplit Hst; simpl.
  - rewrite Hsplit, app_nil_r. exact Hst.
  - assert (Str.split_lines code = (done ++ [line]) ++ rest) as Hsplit'
      by (rewrite <- app_assoc; exact Hsplit).
    specialize (IH (done ++ [line])
                  (SmartChunker.chunk_code_step self document_id clock code
                     (Str.split_lines code) st (List.length done, line)) Hsplit').
    rewrite length_app, Nat.add_1_r in IH. apply IH.
    apply chunk_code_step_progress; [|exact Hst].
    rewrite Hsplit. apply list_lookup_middle. reflexivity.
Qed.

Lemma chunk_code_ok :
  List.Forall (code_chunk_ok code)
    (SmartChunker.chunk_code self document_id clock code)
  /\ numbered "_code_chunk_" document_id
       (SmartChunker.chunk_code self document_id clock code).
Proof.
  unfold SmartChunker.chunk_code.
  pose proof (chunk_code_fold_progress (Str.split_lines code) [] ([], [], 0) eq_refl)
    as Hst.
  cbn [List.length] in Hst.
  destruct (fold_left _ _ _) as [[chunks current_chunk] chunk_start_line].
  destruct Hst as (a & -> & Han & -> & Hok & Hnum).
  { exists 0%nat. split; [reflexivity |]. split; [lia |].
    split; [reflexivity |]. split; [constructor | apply numbered_nil]. }
  destruct (take _ _) as [|l0 ls] eqn:Hcurrent; [split; assumption |].
  assert (a < List.length (Str.split_lines code))%nat as Hlt.
  { apply (f_equal (@List.length _)) in Hcurrent. rewrite length_take in Hcurrent.
    simpl in Hcurrent. lia. }
  rewrite <- Hcurrent.
  assert (a <= List.length (Str.split_lines code) - 1
          < List.length (Str.split_lines code))%nat as Hrange by lia.
  pose proof (emit_code_chunk_ok chunks a _ Hrange Hok Hnum) as Hemit.
  replace (List.length (Str.split_lines code) - 1 + 1 - a)%nat
    with (List.length (Str.split_lines code) - a)%nat in Hemit by lia.
  replace (Z.of_nat (List.length (Str.split_lines code) - 1))
    with (Z.of_nat (List.length (Str.split_lines code)) - 1) in Hemit by lia.
  exact Hemit.
Qed.

End ChunkCodeShape.

(** X8. Every chunk of [chunk_code] records in its metadata the line range
    [start_line..end_line] it was cut from, and its content is exactly these
    lines of the code joined by newlines; it is tagged with the language
    detected on the whole code, and it is never blank. *)
Theorem chunk_code_line_ranges (self : SmartChunker.t) (document_id : string)
    (clock : nat -> Z) (code : string) :
  List.Forall (code_chunk_ok code)
    (SmartChunker.chunk_code self document_id clock code).
Proof. apply chunk_code_ok. Qed.

(** X9. The chunks of [chunk_code] are numbered in order: the chunk at
    position [i] has id [document_id + "_code_chunk_" + str(i)] and carries
    the document id; no two chunks of a call share an id. *)
Theorem chunk_code_ids (self : SmartChunker.t) (document_id : string)
    (clock : nat -> Z) (code : string) :
  numbered "_code_chunk_" document_id
    (SmartChunker.chunk_code self document_id clock code)
  /\ List.NoDup
       (map DocumentChunk.id (SmartChunker.chunk_code self document_id clock code)).
Proof.
  pose proof (proj2 (chunk_code_ok self document_id clock code)) as Hnum.
  split; [exact Hnum | exact (numbered_NoDup _ _ _ Hnum)].
Qed.

(** ** BGEEncoder: what encode returns *)

Lemma filled_vector_unit_interval cfg text :
  List.Forall unit_float32 (filled_vector cfg text).
Proof.
  unfold filled_vector. apply List.Forall_app. split.
  - apply List.Forall_forall. intros bits Hin. apply in_map_iff in Hin as (i & <- & _).
    apply digit_value_unit_interval, hexdigest_hex_string.
  - apply List.Forall_forall. intros bits Hin. apply repeat_spec in Hin as ->.
    eexists. split; [vm_compute; reflexivity | split; discriminate].
Qed.

(** X11. Every vector that the fallback encoder returns has
    [EMBEDDING_DIM] components, and every component is a finite float32 in
    [0, 1]. *)
Theorem fallback_encode_unit_interval (cfg : Config) (texts : list string)
    (embeddings : list (list Z)) :
  BGEEncoder._fallback_encode cfg texts = Ok embeddings ->
  List.Forall
    (fun embedding =>
       List.length embedding = EMBEDDING_DIM cfg
       /\ List.Forall unit_float32 embedding)
    embeddings.
Proof.
  rewrite fallback_encode_map. intros Heq. injection Heq as <-.
  apply List.Forall_forall. intros e Hin. apply in_map_iff in Hin as (text & <- & _).
  split; [apply filled_vector_length | apply filled_vector_unit_interval].
Qed.

Lemma fallback_encode_unit_interval_witness :
  List.Forall
    (fun embedding =>
       List.length embedding = EMBEDDING_DIM default_config
       /\ List.Forall unit_float32 embedding)
    [filled_vector default_config python_text; filled_vector default_config rust_text].
Proof.
  apply (fallback_encode_unit_interval default_config [python_text; rust_text]).
  vm_compute. reflexivity.
Defined.

(** X12. Whatever the text, the fallback vector holds 0.0 at every position
    from 32 on: the loop stops after the 32 digits of the digest. *)
Theorem fallback_vector_zero_tail (cfg : Config) (text : string) (i : nat) :
  (32 <= i < EMBEDDING_DIM cfg)%nat ->
  exists embedding,
    BGEEncoder.fallback_vector cfg text = Ok embedding
    /\ embedding !! i = Some Float.zero.
Proof.
  intros Hi. exists (filled_vector cfg text).
  split; [apply fallback_vector_filled | now apply filled_vector_tail].
Qed.

Lemma fallback_vector_zero_tail_witness :
  exists embedding,
    BGEEncoder.fallback_vector default_config python_text = Ok embedding
    /\ embedding !! 383%nat = Some Float.zero.
Proof.
  apply (fallback_vector_zero_tail default_config python_text 383).
  simpl. lia.
Defined.

(** ** USearchIndex: the chunk metadata as a dict *)

Lemma dict_get_set_eq {V} (k : string) (v : V) d :
  dict_get k (dict_set k v d) = Some v.
Proof.
  induction d as [|[k' v'] d IH]; simpl.
  - now rewrite String.eqb_refl.
  - destruct (String.eqb_spec k' k) as [->|Hne]; simpl.
    + now rewrite String.eqb_refl.
    + apply String.eqb_neq in Hne. now rewrite Hne.
Qed.

Lemma dict_get_set_ne {V} (k k0 : string) (v : V) d :
  k0 <> k -> dict_get k0 (dict_set k v d) = dict_get k0 d.
Proof.
  intros Hne. induction d as [|[k' v'] d IH]; simpl.
  - destruct (String.eqb_spec k k0); [congruence | reflexivity].
  - destruct (String.eqb_spec k' k) as [->|Hne']; simpl.
    + destruct (String.eqb_spec k k0); [congruence | reflexivity].
    + destruct (String.eqb_spec k' k0); [reflexivity | exact IH].
Qed.

Lemma dict_get_None {V} (k : string) (d : list (string * V)) :
  dict_get k d = None <-> ~ In k (map fst d).
Proof.
  induction d as [|[k' v'] d IH]; simpl; [tauto |].
  destruct (String.eqb_spec k' k) as [->|Hne].
  - split; [discriminate | intros Hnot; exfalso; apply Hnot; now left].
  - rewrite IH. split; [intros Hnot [Heq|Hin]; [congruence | tauto] | tauto].
Qed.

(** Assigning a new key appends; assigning a present key keeps the keys. *)
Lemma dict_set_fresh {V} (k : string) (v : V) d :
  ~ In k (map fst d) -> dict_set k v d = d ++ [(k, v)].
Proof.
  induction d as [|[k' v'] d IH]; simpl; intros Hnot; [reflexivity |].
  destruct (String.eqb_spec k' k) as [->|Hne]; [exfalso; apply Hnot; now left |].
  rewrite IH by tauto. reflexivity.
Qed.

Lemma dict_set_present {V} (k : string) (v : V) d :
  In k (map fst d) -> map fst (dict_set k v d) = map fst d.
Proof.
  induction d as [|[k' v'] d IH]; simpl; intros Hin; [contradiction |].
  destruct (String.eqb_spec k' k) as [->|Hne]; simpl; [reflexivity |].
  rewrite IH; [reflexivity |]. destruct Hin; [congruence | assumption].
Qed.

Lemma dict_set_entries {V} (P : string * V -> Prop) (k : string) (v : V) d :
  P (k, v) -> List.Forall P d -> List.Forall P (dict_set k v d).
Proof.
  intros Hkv. induction 1 as [|[k' v'] d Hhd Htl IH]; simpl.
  - constructor; [assumption | constructor].
  - destruct (String.eqb k' k); constructor; assumption.
Qed.

Lemma dict_set_well_keyed (chunk : DocumentChunk.t) d :
  well_keyed d -> well_keyed (dict_set (DocumentChunk.id chunk) chunk d).
Proof.
  intros [Hkeys Hnodup]. split.
  - now apply dict_set_entries.
  - destruct (in_dec string_dec (DocumentChunk.id chunk) (map fst d)) as [Hin|Hnot].
    + now rewrite dict_set_present.
    + rewrite dict_set_fresh, map_app by assumption. simpl.
      apply NoDup_ListNoDup, NoDup_app. split; [now apply NoDup_ListNoDup |].
      split; [|apply NoDup_singleton].
      intros k Hk Hk'. apply list_elem_of_In in Hk. apply list_elem_of_In in Hk'.
      destruct Hk' as [<-|[]]. contradiction.
Qed.

Lemma dict_set_length {V} (k : string) (v : V) d :
  List.length (dict_set k v d)
  = match dict_get k d with
    | Some _ => List.length d
    | None => S (List.length d)
    end.
Proof.
  induction d as [|[k' v'] d IH]; simpl; [reflexivity |].
  destruct (String.eqb k' k); simpl; [reflexivity |].
  rewrite IH. destruct (dict_get k d); reflexivity.
Qed.

Section AddChunkFacts.
Context `{VectorIndex}.

Lemma add_chunk_effect (self : USearchIndex.t) (disk : USearchIndex.files)
    (chunk : DocumentChunk.t) (embedding : list Z) :
  match USearchIndex.add_chunk self disk chunk embedding with
  | (Ok _, (self', _)) =>
      (exists key,
         USearchIndex.index_key (DocumentChunk.id chunk) = Some key
         /\ Index_add (USearchIndex.index self) key embedding
            = Some (USearchIndex.index self'))
      /\ dict_get (DocumentChunk.id chunk) (USearchIndex.document_chunks self')
         = Some chunk
      /\ (forall cid, cid <> DocumentChunk.id chunk ->
            dict_get cid (USearchIndex.document_chunks self')
            = dict_get cid (USearchIndex.document_chunks self))
  | (Raise _, state) => state = (self, disk)
  end.
Proof.
  unfold USearchIndex.add_chunk.
  destruct (USearchIndex.index_key (DocumentChunk.id chunk)) as [key|]; [|reflexivity].
  destruct (Index_add _ _ _) as [index'|] eqn:Hadd; [|reflexivity].
  cbn [USearchIndex.document_chunks USearchIndex.index].
  split; [exists key; split; [reflexivity | exact Hadd] |].
  split; [apply dict_get_set_eq |].
  intros cid Hne. now apply dict_get_set_ne.
Qed.

Lemma add_chunk_keys (self self' : USearchIndex.t)
    (disk disk' : USearchIndex.files) (chunk : DocumentChunk.t) (embedding : list Z) :
  USearchIndex.add_chunk self disk chunk embedding = (Ok tt, (self', disk')) ->
  well_keyed (USearchIndex.document_chunks self) ->
  well_keyed (USearchIndex.document_chunks self')
  /\ List.length (USearchIndex.document_chunks self')
     = match dict_get (DocumentChunk.id chunk) (USearchIndex.document_chunks self) with
       | Some _ => List.length (USearchIndex.document_chunks self)
       | None => S (List.length (USearchIndex.document_chunks self))
       end.
Proof.
  unfold USearchIndex.add_chunk. intros Hadd Hkeyed.
  destruct (USearchIndex.index_key (DocumentChunk.id chunk)); [|discriminate].
  destruct (Index_add _ _ _); [|discriminate].
  injection Hadd as <- _. cbn [USearchIndex.document_chunks].
  split; [now apply dict_set_well_keyed | apply dict_set_length].
Qed.

End AddChunkFacts.


(** X14. [add_chunk] keeps the chunk metadata well keyed (each key is the id
    of its chunk, no key twice), and the number of stored chunks grows by
    one for a new id and not at all for an id already stored. *)
Theorem add_chunk_well_keyed `{VectorIndex} (self self' : USearchIndex.t)
    (disk disk' : USearchIndex.files) (chunk : DocumentChunk.t) (embedding : list Z) :
  USearchIndex.add_chunk self disk chunk embedding = (Ok tt, (self', disk')) ->
  well_keyed (USearchIndex.document_chunks self) ->
  well_keyed (USearchIndex.document_chunks self')
  /\ List.length (USearchIndex.document_chunks self')
     = match dict_get (DocumentChunk.id chunk) (USearchIndex.document_chunks self) with
       | Some _ => List.length (USearchIndex.document_chunks self)
       | None => S (List.length (USearchIndex.document_chunks self))
       end.
Proof. apply add_chunk_keys. Qed.

Lemma add_chunk_well_keyed_witness :
  well_keyed (USearchIndex.document_chunks (RAGEngine.vector_index eng1))
  /\ List.length (USearchIndex.document_chunks (RAGEngine.vector_index eng1)) = 1%nat.
Proof.
  apply (add_chunk_well_keyed (RAGEngine.vector_index eng0) (RAGEngine.vector_index eng1)
           disk0
           (USearchIndex.save (RAGEngine.vector_index eng1) disk0)
           (DocumentChunk.mk "doc1_chunk_0" python_text "doc1"
              {[ "sentence_count" := VInt 1 ]} None 0)
           (filled_vector default_config python_text)).
  - vm_compute. reflexivity.
  - split; constructor.
Defined.

(** ** USearchIndex.search: where results come from *)

Section SearchProvenance.
Context `{VectorIndex}.

Lemma find_chunk_id_key (items : list (string * DocumentChunk.t)) (key : Z) :
  exists found,
    USearchIndex.find_chunk_id items key = Ok found
    /\ forall cid, found = Some cid ->
         USearchIndex.index_key cid = Some key /\ is_Some (dict_get cid items).
Proof.
  induction items as [|[cid chunk] items IH]; simpl.
  - exists None. split; [reflexivity | discriminate].
  - destruct (index_key_total cid) as [k Hk]. rewrite Hk. simpl.
    destruct (Z.eqb_spec k key) as [->|Hne].
    + exists (Some cid). split; [reflexivity |].
      intros ? [= <-]. rewrite String.eqb_refl. split; [assumption | eauto].
    + destruct IH as (found & -> & Hfound). exists found.
      split; [reflexivity |]. intros cid' Hcid'.
      destruct (Hfound cid' Hcid') as [Hkey Hstored]. split; [assumption |].
      destruct (String.eqb cid cid'); [eauto | assumption].
Qed.

Lemma search_fold_from_hits (self : USearchIndex.t) (hits : list (Z * Q)) entries :
  forall results,
    incl entries hits ->
    List.Forall (from_hit self hits) results ->
    exists results',
      fold_left (USearchIndex.search_step self) entries (Ok results) = Ok results'
      /\ List.Forall (from_hit self hits) results'
      /\ (List.length results' <= List.length results + List.length entries)%nat.
Proof.
  induction entries as [|[key distance] entries IH]; intros results Hincl Hall;
    cbn [fold_left].
  - exists results. split; [reflexivity |]. split; [assumption | simpl; lia].
  - assert (incl entries hits) as Hincl' by (intros e He; apply Hincl; now right).
    assert (In (key, distance) hits) as Hhit by (apply Hincl; now left).
    unfold USearchIndex.search_step at 2. simpl.
    destruct (find_chunk_id_key (USearchIndex.document_chunks self) key)
      as (found & -> & Hfound).
    simpl. destruct found as [[|c cid]|].
    + destruct (IH results Hincl' Hall) as (r & -> & Hr & Hlen).
      exists r. split; [reflexivity |]. split; [assumption | simpl; lia].
    + destruct (Hfound _ eq_refl) as [Hkey Hstored].
      destruct (IH (results ++ [(String c cid, (1 / (1 + distance))%Q)]) Hincl')
        as (r & -> & Hr & Hlen).
      { apply List.Forall_app. split; [assumption |]. constructor; [|constructor].
        exists key, distance. repeat split; try assumption. discriminate. }
      exists r. split; [reflexivity |]. split; [assumption |].
      rewrite length_app in Hlen. simpl in *. lia.
    + destruct (IH results Hincl' Hall) as (r & -> & Hr & Hlen).
      exists r. split; [reflexivity |]. split; [assumption | simpl; lia].
Qed.

Lemma search_from_hits (self : USearchIndex.t)
    (query_embedding : list Z) (k : Z) :
  exists results,
    USearchIndex.search self query_embedding k = Ok results
    /\ (List.length results
        <= List.length (Index_search (USearchIndex.index self) query_embedding k))%nat
    /\ List.Forall
         (from_hit self (Index_search (USearchIndex.index self) query_embedding k))
         results.
Proof.
  unfold USearchIndex.search.
  destruct (Index_len (USearchIndex.index self) =? 0)%nat.
  - exists []. split; [reflexivity |]. split; [simpl; lia | constructor].
  - destruct (search_fold_from_hits self
                (Index_search (USearchIndex.index self) query_embedding k)
                (Index_search (USearchIndex.index self) query_embedding k)
                [] (incl_refl _) (List.Forall_nil _))
      as (results & Hfold & Hall & Hlen).
    exists results. split; [assumption |]. split; [simpl in Hlen; lia | assumption].
Qed.


Lemma similarity_unit_interval (distance : Q) :
  (0 <= distance)%Q -> (0 < 1 / (1 + distance) <= 1)%Q.
Proof.
  intros Hd. assert (0 < 1 + distance)%Q as Hpos.
  { apply Qlt_le_trans with (y := 1%Q); [reflexivity |].
    rewrite <- (Qplus_0_r 1) at 1. apply Qplus_le_r. exact Hd. }
  split.
  - apply Qlt_shift_div_l; [exact Hpos |]. rewrite Qmult_0_l. reflexivity.
  - apply Qle_shift_div_r; [exact Hpos |]. rewrite Qmult_1_l.
    rewrite <- (Qplus_0_r 1) at 1. apply Qplus_le_r. exact Hd.
Qed.

(** X16. When the library reports no negative distance, every score that
    [search] returns lies in (0, 1]. *)
Theorem search_scores_unit_interval (self : USearchIndex.t)
    (query_embedding : list Z) (k : Z) :
  List.Forall (fun hit => (0 <= snd hit)%Q)
    (Index_search (USearchIndex.index self) query_embedding k) ->
  exists results,
    USearchIndex.search self query_embedding k = Ok results
    /\ List.Forall (fun result => (0 < snd result <= 1)%Q) results.
Proof.
  intros Hdist.
  destruct (search_from_hits self query_embedding k)
    as (results & Hsearch & _ & Hfrom).
  exists results. split; [assumption |].
  apply List.Forall_forall. intros [cid similarity] Hin.
  rewrite List.Forall_forall in Hfrom, Hdist.
  destruct (Hfrom _ Hin) as (key & distance & Hhit & _ & Hsim & _).
  simpl in *. subst similarity. apply similarity_unit_interval.
  exact (Hdist _ Hhit).
Qed.

End SearchProvenance.


Lemma search_scores_unit_interval_witness :
  exists results,
    USearchIndex.search (RAGEngine.vector_index eng1)
      (filled_vector default_config "language") 5 = Ok results
    /\ List.Forall (fun result => (0 < snd result <= 1)%Q) results.
Proof.
  apply (search_scores_unit_interval (RAGEngine.vector_index eng1)
           (filled_vector default_config "language") 5).
  vm_compute. repeat constructor; discriminate.
Defined.

(** ** RAGEngine.ingest_document: what it leaves behind *)

Section IngestFacts.
Context `{SentenceTokenizer} `{VectorIndex}.

(** When the loop succeeds on chunks with distinct ids, every chunk is
    stored under its id and the other ids are untouched. *)
Lemma add_chunks_stored pairs : forall index disk index' disk',
  RAGEngine.add_chunks index disk pairs = (Ok tt, (index', disk')) ->
  List.NoDup (map (fun pair => DocumentChunk.id (fst pair)) pairs) ->
  List.Forall
    (fun pair =>
       dict_get (DocumentChunk.id (fst pair)) (USearchIndex.document_chunks index')
       = Some (fst pair))
    pairs
  /\ (forall cid,
        ~ In cid (map (fun pair => DocumentChunk.id (fst pair)) pairs) ->
        dict_get cid (USearchIndex.document_chunks index')
        = dict_get cid (USearchIndex.document_chunks index)).
Proof.
  induction pairs as [|[chunk embedding] rest IH];
    intros index disk index' disk' Hadd Hnodup.
  - simpl in Hadd. injection Hadd as <- <-.
    split; [constructor | reflexivity].
  - cbn [RAGEngine.add_chunks] in Hadd.
    pose proof (add_chunk_effect index disk chunk embedding) as Hone.
    destruct (USearchIndex.add_chunk index disk chunk embedding)
      as [[[]|e] [index1 disk1]]; [|discriminate].
    destruct Hone as (_ & Hget & Hothers).
    simpl in Hnodup. apply List.NoDup_cons_iff in Hnodup as [Hfresh Hnodup].
    destruct (IH index1 disk1 index' disk' Hadd Hnodup) as (Hrest & Hkeep).
    split.
    + constructor; [|exact Hrest]. cbn [fst]. now rewrite Hkeep.
    + intros cid Hcid. rewrite Hkeep by (intros Hin; apply Hcid; now right).
      apply Hothers. intros ->. apply Hcid. now left.
Qed.

Lemma combine_fallback_fst cfg (chunks : list DocumentChunk.t) :
  map fst (combine chunks (map (filled_vector cfg) (map DocumentChunk.content chunks)))
  = chunks.
Proof. induction chunks as [|c chunks IH]; simpl; [reflexivity | now rewrite IH]. Qed.

Lemma ingest_chunks_NoDup (self : SmartChunker.t) doc_id clock content :
  List.NoDup
    (map DocumentChunk.id
       (if RAGEngine._is_code content
        then SmartChunker.chunk_code self doc_id clock content
        else SmartChunker.chunk_text self doc_id clock content)).
Proof.
  destruct (RAGEngine._is_code content).
  - exact (numbered_NoDup _ _ _ (proj2 (chunk_code_ok self doc_id clock content))).
  - exact (numbered_NoDup _ _ _
             (chunk_sentences_numbered self doc_id clock (sent_tokenize content))).
Qed.

End IngestFacts.

(** X18. When [ingest_document] returns, it returns the given id, or
    "doc_" and twelve digits of the digest of the content when none was
    given.  Whether it returns or an exception is raised after the id was
    fixed, the text has been filed in [documents] under that id, the other
    documents are untouched, and [get_document_summary] of that id reports
    the length of the text. *)
Theorem ingest_document_records_text `{SentenceTokenizer} `{VectorIndex}
    (cfg : Config) (self engine : RAGEngine.t) (disk disk' : USearchIndex.files)
    (content : string) (doc_id : option string)
    (metadata : option (gmap string value)) (clock : nat -> Z)
    (outcome : result string) :
  RAGEngine.ingest_document cfg self disk content doc_id metadata clock
  = (outcome, (engine, disk')) ->
  (forall id, outcome = Ok id -> id = resolved_doc_id content doc_id)
  /\ RAGEngine.documents engine
     = <[ resolved_doc_id content doc_id := content ]> (RAGEngine.documents self)
  /\ exists summary,
       RAGEngine.get_document_summary engine (resolved_doc_id content doc_id)
       = Some summary
       /\ RAGEngine.length summary = Z.of_nat (String.length content).
Proof.
  unfold RAGEngine.ingest_document. fold (resolved_doc_id content doc_id).
  cbn [RAGEngine.chunker RAGEngine.encoder RAGEngine.vector_index
       RAGEngine.context_manager RAGEngine.documents].
  intros Hingest.
  assert (RAGEngine.documents engine
          = <[ resolved_doc_id content doc_id := content ]> (RAGEngine.documents self)
          /\ forall id, outcome = Ok id -> id = resolved_doc_id content doc_id)
    as [Hdocuments Hid].
  { destruct (BGEEncoder.encode _ _ _) as [embeddings|e].
    - destruct (RAGEngine.add_chunks _ _ _) as [added [index' disk1]].
      injection Hingest as <- <- _. split; [reflexivity |].
      intros id. destruct added; simpl; congruence.
    - injection Hingest as <- <- _. split; [reflexivity | discriminate]. }
  split; [exact Hid |]. split; [exact Hdocuments |].
  unfold RAGEngine.get_document_summary. rewrite Hdocuments, lookup_insert_eq.
  eexists. split; reflexivity.
Qed.

Lemma ingest_document_records_text_witness :
  (forall id, Ok "doc2" = Ok id -> id = resolved_doc_id rust_text (Some "doc2"))
  /\ RAGEngine.documents eng2
     = <[ resolved_doc_id rust_text (Some "doc2") := rust_text ]>
         (RAGEngine.documents eng1)
  /\ exists summary,
       RAGEngine.get_document_summary eng2 (resolved_doc_id rust_text (Some "doc2"))
       = Some summary
       /\ RAGEngine.length summary = Z.of_nat (String.length rust_text).
Proof.
  apply (ingest_document_records_text default_config eng1 eng2
           (USearchIndex.save (RAGEngine.vector_index eng1) disk0)
           (USearchIndex.save (RAGEngine.vector_index eng2) disk0)
           rust_text (Some "doc2") None clock0 (Ok "doc2")).
  vm_compute. reflexivity.
Defined.

(** X19. Without an embedding model, a successful [ingest_document] stores
    every chunk the chunker produced under its id in [document_chunks] and
    leaves the chunks of other ids as they were. *)
Theorem ingest_document_stores_chunks `{SentenceTokenizer} `{VectorIndex}
    (cfg : Config) (self engine : RAGEngine.t) (disk disk' : USearchIndex.files)
    (content : string) (doc_id : option string)
    (metadata : option (gmap string value)) (clock : nat -> Z) (id : string) :
  BGEEncoder.model (RAGEngine.encoder self) = None ->
  RAGEngine.ingest_document cfg self disk content doc_id metadata clock
  = (Ok id, (engine, disk')) ->
  let chunks :=
    if RAGEngine._is_code content
    then SmartChunker.chunk_code (RAGEngine.chunker self) id clock content
    else SmartChunker.chunk_text (RAGEngine.chunker self) id clock content in
  id = resolved_doc_id content doc_id
  /\ List.Forall
       (fun chunk =>
          dict_get (DocumentChunk.id chunk)
            (USearchIndex.document_chunks (RAGEngine.vector_index engine))
          = Some chunk)
       chunks
  /\ (forall cid, ~ In cid (map DocumentChunk.id chunks) ->
        dict_get cid (USearchIndex.document_chunks (RAGEngine.vector_index engine))
        = dict_get cid (USearchIndex.document_chunks (RAGEngine.vector_index self))).
Proof.
  intros Hmodel Hingest. cbv zeta.
  unfold RAGEngine.ingest_document in Hingest.
  fold (resolved_doc_id content doc_id) in Hingest.
  cbn [RAGEngine.chunker RAGEngine.encoder RAGEngine.vector_index
       RAGEngine.context_manager RAGEngine.documents] in Hingest.
  unfold BGEEncoder.encode in Hingest. rewrite Hmodel, fallback_encode_map in Hingest.
  remember (if RAGEngine._is_code content
            then SmartChunker.chunk_code (RAGEngine.chunker self)
                   (resolved_doc_id content doc_id) clock content
            else SmartChunker.chunk_text (RAGEngine.chunker self)
                   (resolved_doc_id content doc_id) clock content) as chunks eqn:Hchunks.
  destruct (RAGEngine.add_chunks (RAGEngine.vector_index self) disk
              (combine chunks (map (filled_vector cfg) (map DocumentChunk.content chunks))))
    as [outcome [index1 disk1]] eqn:Hadd.
  destruct outcome as [[]|e]; [|discriminate].
  injection Hingest as <- <- <-. split; [reflexivity |].
  rewrite <- Hchunks. cbn [RAGEngine.vector_index].
  assert (List.NoDup
            (map (fun pair : DocumentChunk.t * list Z => DocumentChunk.id (fst pair))
               (combine chunks
                  (map (filled_vector cfg) (map DocumentChunk.content chunks)))))
    as Hnodup.
  { rewrite <- (map_map fst DocumentChunk.id), combine_fallback_fst. subst chunks.
    apply ingest_chunks_NoDup. }
  destruct (add_chunks_stored _ _ _ _ _ Hadd Hnodup) as (Hstored & Hkeep).
  rewrite <- (map_map fst DocumentChunk.id), combine_fallback_fst in Hkeep.
  split.
  - rewrite <- (combine_fallback_fst cfg chunks) at 1.
    apply List.Forall_map. exact Hstored.
  - exact Hkeep.
Qed.

Lemma ingest_document_stores_chunks_witness :
  let chunks :=
    if RAGEngine._is_code python_text
    then SmartChunker.chunk_code (RAGEngine.chunker eng0) "doc1" clock0 python_text
    else SmartChunker.chunk_text (RAGEngine.chunker eng0) "doc1" clock0 python_text in
  "doc1" = resolved_doc_id python_text (Some "doc1")
  /\ List.Forall
       (fun chunk =>
          dict_get (DocumentChunk.id chunk)
            (USearchIndex.document_chunks (RAGEngine.vector_index eng1))
          = Some chunk)
       chunks
  /\ (forall cid, ~ In cid (map DocumentChunk.id chunks) ->
        dict_get cid (USearchIndex.document_chunks (RAGEngine.vector_index eng1))
        = dict_get cid (USearchIndex.document_chunks (RAGEngine.vector_index eng0))).
Proof.
  apply (ingest_document_stores_chunks default_config eng0 eng1 disk0
           (USearchIndex.save (RAGEngine.vector_index eng1) disk0)
           python_text (Some "doc1") None clock0 "doc1").
  - reflexivity.
  - vm_compute. reflexivity.
Defined.

(** ** RAGEngine.retrieve: order and origin of the results *)

Section RetrieveOrder.
Context `{VectorIndex}.

Lemma insert_by_score_sorted r sorted :
  StronglySorted by_descending_score sorted ->
  StronglySorted by_descending_score (RAGEngine.insert_by_score r sorted).
Proof.
  induction 1 as [|x rest Hrest IH Hx]; simpl.
  - constructor; constructor.
  - destruct (Qle_bool (RetrievedResult.score r) (RetrievedResult.score x)) eqn:Hle.
    + apply Qle_bool_iff in Hle. constructor; [exact IH |].
      rewrite (insert_by_score_perm r rest). constructor; assumption.
    + assert (RetrievedResult.score x <= RetrievedResult.score r)%Q as Hlt.
      { apply Qlt_le_weak, Qnot_le_lt. intros Hle'.
        apply Qle_bool_iff in Hle'. congruence. }
      constructor; [constructor; assumption |].
      constructor; [exact Hlt |].
      apply List.Forall_forall. intros y Hy. rewrite List.Forall_forall in Hx.
      unfold by_descending_score in *. apply Qle_trans with (y := RetrievedResult.score x);
        [exact (Hx y Hy) | exact Hlt].
Qed.

Lemma sort_by_score_from_sorted results : forall sorted,
  StronglySorted by_descending_score sorted ->
  StronglySorted by_descending_score
    (fold_left (fun sorted r => RAGEngine.insert_by_score r sorted) results sorted).
Proof.
  induction results as [|r results IH]; intros sorted Hsorted; simpl;
    [assumption | apply IH, insert_by_score_sorted, Hsorted].
Qed.

Lemma hydrate_projection (index : USearchIndex.t) search_results :
  List.Forall (projection_of index) (RAGEngine.hydrate index search_results).
Proof.
  unfold RAGEngine.hydrate.
  induction search_results as [|[chunk_id similarity] rest IH]; [constructor |].
  cbn [omap list_omap].
  destruct (dict_get chunk_id (USearchIndex.document_chunks index)) as [chunk|] eqn:Hget;
    cbn; [|exact IH].
  constructor; [|exact IH]. exists chunk_id, chunk. repeat split. exact Hget.
Qed.

Lemma retrieve_inv (cfg : Config) (self : RAGEngine.t) query k retrieved :
  RAGEngine.retrieve cfg self query k = Ok retrieved ->
  exists search_results,
    retrieved
    = RAGEngine.sort_by_score (RAGEngine.hydrate (RAGEngine.vector_index self) search_results).
Proof.
  unfold RAGEngine.retrieve. intros Hret.
  destruct (BGEEncoder.encode cfg (RAGEngine.encoder self) [query])
    as [[|query_embedding rest]|e]; try discriminate.
  simpl in Hret.
  destruct (USearchIndex.search (RAGEngine.vector_index self) query_embedding k)
    as [search_results|e]; [|discriminate].
  simpl in Hret. injection Hret as <-. eauto.
Qed.

End RetrieveOrder.

(** X20. The results of [retrieve] are in order of descending score: no
    result is followed, at any distance, by one with a higher score. *)
Theorem retrieve_sorted_by_score `{VectorIndex}
    (cfg : Config) (self : RAGEngine.t) (query : string) (k : Z)
    (retrieved : list RetrievedResult.t) :
  RAGEngine.retrieve cfg self query k = Ok retrieved ->
  StronglySorted by_descending_score retrieved.
Proof.
  intros Hret. destruct (retrieve_inv cfg self query k retrieved Hret) as [hits ->].
  apply sort_by_score_from_sorted. constructor.
Qed.

Lemma retrieve_sorted_by_score_witness :
  StronglySorted by_descending_score retrieved_rust.
Proof.
  apply (retrieve_sorted_by_score default_config eng2 "Rust" 5 retrieved_rust).
  exact (@eq_refl _ (Ok retrieved_rust)
           <: RAGEngine.retrieve default_config eng2 "Rust" 5 = Ok retrieved_rust).
Defined.

(** On the example the index returns doc1 before doc2; the sort puts the
    higher score first. *)
Example retrieved_rust_scores :
  map (fun r => (RetrievedResult.chunk_id r, RetrievedResult.score r)) retrieved_rust
  = [("doc2_chunk_0", (1 # 31)%Q); ("doc1_chunk_0", (1 # 32)%Q)].
Proof. vm_compute. reflexivity. Qed.

(** X21. When the encoder returns a vector for the query, from the model
    or from the fallback, [retrieve] on an engine whose index holds no
    vector returns the empty list, not an error. *)
Theorem retrieve_empty_index `{VectorIndex}
    (cfg : Config) (self : RAGEngine.t) (query : string) (k : Z)
    (query_embedding : list Z) (others : list (list Z)) :
  BGEEncoder.encode cfg (RAGEngine.encoder self) [query]
  = Ok (query_embedding :: others) ->
  Index_len (USearchIndex.index (RAGEngine.vector_index self)) = 0%nat ->
  RAGEngine.retrieve cfg self query k = Ok [].
Proof.
  intros Hencode Hlen. unfold RAGEngine.retrieve. rewrite Hencode. simpl.
  unfold USearchIndex.search. rewrite Hlen. reflexivity.
Qed.

Lemma retrieve_empty_index_witness :
  RAGEngine.retrieve default_config eng0 "language" 5 = Ok [].
Proof.
  apply (retrieve_empty_index default_config eng0 "language" 5
           (filled_vector default_config "language") []).
  - vm_compute. reflexivity.
  - reflexivity.
Defined.

(** X22. Every result of [retrieve] is the projection of a chunk stored in
    [document_chunks]: it carries that chunk's content, document id, id and
    metadata. *)
Theorem retrieve_results_are_stored_chunks `{VectorIndex}
    (cfg : Config) (self : RAGEngine.t) (query : string) (k : Z)
    (retrieved : list RetrievedResult.t) :
  RAGEngine.retrieve cfg self query k = Ok retrieved ->
  List.Forall (projection_of (RAGEngine.vector_index self)) retrieved.
Proof.
  intros Hret. destruct (retrieve_inv cfg self query k retrieved Hret) as [hits ->].
  apply (Permutation_Forall (Permutation_sym (sort_by_score_perm _))).
  apply hydrate_projection.
Qed.

Lemma retrieve_results_are_stored_chunks_witness :
  List.Forall (projection_of (RAGEngine.vector_index eng2)) retrieved_rust.
Proof.
  apply (retrieve_results_are_stored_chunks default_config eng2 "Rust" 5 retrieved_rust).
  exact (@eq_refl _ (Ok retrieved_rust)
           <: RAGEngine.retrieve default_config eng2 "Rust" 5 = Ok retrieved_rust).
Defined.

(** ** RAGEngine.augment_query_with_context *)

Lemma string_app_assoc (a b c : string) : (a +:+ b) +:+ c = a +:+ b +:+ c.
Proof.
  induction a as [|x a IH]; [reflexivity |].
  change (String x ((a +:+ b) +:+ c) = String x (a +:+ b +:+ c)). now rewrite IH.
Qed.

Lemma prefix_app (p s : string) : String.prefix p (p +:+ s) = true.
Proof.
  induction p as [|c p IH]; simpl; [now destruct s |].
  destruct (Ascii.ascii_dec c c); [exact IH | contradiction].
Qed.

Lemma string_app_nil_r (s : string) : s +:+ EmptyString = s.
Proof.
  induction s as [|c s IH]; [reflexivity |].
  change (String c (s +:+ EmptyString) = String c s). now rewrite IH.
Qed.

Lemma prefix_nil (s : string) : String.prefix EmptyString s = true.
Proof. now destruct s. Qed.

Lemma prefix_app_l (p : string) : forall s t,
  String.prefix p s = true -> String.prefix p (s +:+ t) = true.
Proof.
  induction p as [|c p IH]; intros s t Hp; [apply prefix_nil |].
  destruct s as [|d s]; [discriminate |]. simpl in *.
  destruct (Ascii.ascii_dec c d); [now apply IH | discriminate].
Qed.

Lemma contains_in_app (p s : string) :
  Str.contains p s = true -> forall t, Str.contains p (s +:+ t) = true.
Proof.
  induction s as [|c s IH]; intros Hs t.
  - simpl in Hs. rewrite orb_false_r in Hs.
    destruct p; [|discriminate]. destruct t; reflexivity.
  - cbn [Str.contains] in Hs. apply orb_true_iff in Hs as [Hpre|Hrest].
    + change (String c s +:+ t) with (String c (s +:+ t)). cbn [Str.contains].
      change (String c (s +:+ t)) with (String c s +:+ t).
      rewrite (prefix_app_l _ _ t Hpre). reflexivity.
    + change (String c s +:+ t) with (String c (s +:+ t)). cbn [Str.contains].
      rewrite (IH Hrest t). apply orb_true_r.
Qed.

Lemma contains_prefix (p s : string) :
  String.prefix p s = true -> Str.contains p s = true.
Proof. intros Hp. destruct s; cbn [Str.contains]; now rewrite Hp. Qed.

Lemma contains_here (p s : string) : Str.contains p (p +:+ s) = true.
Proof. apply contains_prefix, prefix_app. Qed.

Lemma contains_skip (p q s : string) :
  Str.contains p s = true -> Str.contains p (q +:+ s) = true.
Proof.
  intros Hs. induction q as [|c q IH]; [exact Hs |].
  change (String c q +:+ s) with (String c (q +:+ s)). cbn [Str.contains].
  rewrite IH. apply orb_true_r.
Qed.

Lemma contains_join (sep part : string) (parts : list string) :
  In part parts -> Str.contains part (Str.join sep parts) = true.
Proof.
  induction parts as [|p parts IH]; [contradiction |].
  intros [->|Hin].
  - destruct parts as [|p' parts]; simpl.
    + rewrite <- (string_app_nil_r part) at 2. apply contains_here.
    + apply contains_here.
  - destruct parts as [|p' parts]; [contradiction |].
    change (Str.join sep (p :: p' :: parts))
      with (p +:+ sep +:+ Str.join sep (p' :: parts)).
    apply contains_skip, contains_skip, IH, Hin.
Qed.

Lemma context_parts_from (results : list RetrievedResult.t) : forall parts part,
  In part parts ->
  In part
    (fold_left
       (fun parts result =>
          parts ++ [ "Document: " +:+ RetrievedResult.document_id result;
                     "Contenu: " +:+ RetrievedResult.content result;
                     "---" ])
       results parts).
Proof.
  induction results as [|r results IH]; intros parts part Hin; simpl; [exact Hin |].
  apply IH, in_or_app. now left.
Qed.

Lemma context_parts_In (results : list RetrievedResult.t) : forall parts result,
  In result results ->
  In ("Document: " +:+ RetrievedResult.document_id result)
     (fold_left
        (fun parts result =>
           parts ++ [ "Document: " +:+ RetrievedResult.document_id result;
                      "Contenu: " +:+ RetrievedResult.content result;
                      "---" ])
        results parts)
  /\ In ("Contenu: " +:+ RetrievedResult.content result)
        (fold_left
           (fun parts result =>
              parts ++ [ "Document: " +:+ RetrievedResult.document_id result;
                         "Contenu: " +:+ RetrievedResult.content result;
                         "---" ])
           results parts).
Proof.
  induction results as [|r results IH]; intros parts result Hin; [contradiction |].
  simpl. destruct Hin as [->|Hin]; [|now apply IH].
  split; apply context_parts_from, in_or_app; right; simpl; tauto.
Qed.

(** X23. The augmented query always ends with the original query, and is
    the query itself when nothing was retrieved; otherwise it contains, for
    every result, the lines "Document: <document id>" and
    "Contenu: <content>". *)
Theorem augment_query_keeps_query_and_results (query : string)
    (retrieved_results : list RetrievedResult.t) :
  exists before,
    augment_query_with_context query retrieved_results = before +:+ query
    /\ (retrieved_results = [] -> before = EmptyString)
    /\ List.Forall
         (fun result =>
            Str.contains ("Document: " +:+ RetrievedResult.document_id result)
              (augment_query_with_context query retrieved_results) = true
            /\ Str.contains ("Contenu: " +:+ RetrievedResult.content result)
                 (augment_query_with_context query retrieved_results) = true)
         retrieved_results.
Proof.
  destruct retrieved_results as [|r0 results].
  - exists EmptyString. split; [reflexivity |]. split; [reflexivity | constructor].
  - assert (augment_query_with_context query (r0 :: results)
            = Str.join LF (context_parts (r0 :: results))
              +:+ LF +:+ LF +:+ "Question originale: " +:+ query) as Haug by reflexivity.
    rewrite Haug.
    exists (Str.join LF (context_parts (r0 :: results))
            +:+ LF +:+ LF +:+ "Question originale: ").
    split; [now rewrite !string_app_assoc |]. split; [discriminate |].
    apply List.Forall_forall. intros result Hin.
    destruct (context_parts_In (r0 :: results) [contexte_recupere] result Hin)
      as [Hdoc Hcontent].
    split.
    + exact (contains_in_app _ _ (contains_join LF _ _ Hdoc) _).
    + exact (contains_in_app _ _ (contains_join LF _ _ Hcontent) _).
Qed.

(** ** SmartChunker.chunk_text: every sentence lands in a chunk *)

Lemma lstrip_app (a t : string) :
  Str.lstrip (a +:+ t)
  = match Str.lstrip a with
    | EmptyString => Str.lstrip t
    | String c r => String c r +:+ t
    end.
Proof.
  induction a as [|c a IH]; [reflexivity |].
  change (String c a +:+ t) with (String c (a +:+ t)). cbn [Str.lstrip].
  destruct (Str.isspace c); [exact IH | reflexivity].
Qed.


Lemma lstrip_blank (s : string) : Str.lstrip (" " +:+ s) = Str.lstrip s.
Proof. reflexivity. Qed.




Section ChunkTextCoverage.
Variable self : SmartChunker.t.
Variable document_id : string.
Variable clock : nat -> Z.






End ChunkTextCoverage.


(** ** RAGEngine.get_document_summary after ingest_document *)

Section SummaryFacts.
Context `{SentenceTokenizer} `{VectorIndex}.

(** Chunks whose ids are new to [document_chunks] are appended to it in the
    order of insertion. *)
Lemma add_chunks_appends pairs : forall index disk index' disk',
  RAGEngine.add_chunks index disk pairs = (Ok tt, (index', disk')) ->
  List.NoDup (map (fun pair => DocumentChunk.id (fst pair)) pairs) ->
  (forall cid, In cid (map (fun pair => DocumentChunk.id (fst pair)) pairs) ->
     ~ In cid (map fst (USearchIndex.document_chunks index))) ->
  USearchIndex.document_chunks index'
  = USearchIndex.document_chunks index
    ++ map (fun pair => (DocumentChunk.id (fst pair), fst pair)) pairs.
Proof.
  induction pairs as [|[chunk embedding] rest IH];
    intros index disk index' disk' Hadd Hnodup Hfresh.
  - simpl in Hadd. injection Hadd as <- <-. simpl. now rewrite app_nil_r.
  - cbn [RAGEngine.add_chunks] in Hadd. unfold USearchIndex.add_chunk in Hadd.
    destruct (USearchIndex.index_key (DocumentChunk.id chunk)); [|discriminate].
    destruct (Index_add _ _ _) as [index1|]; [|discriminate].
    simpl in Hnodup. apply List.NoDup_cons_iff in Hnodup as [Hnew Hnodup].
    apply IH in Hadd; [|exact Hnodup|].
    + rewrite Hadd. cbn [USearchIndex.document_chunks].
      rewrite dict_set_fresh by (apply Hfresh; now left).
      rewrite <- app_assoc. reflexivity.
    + intros cid Hcid. cbn [USearchIndex.document_chunks].
      rewrite dict_set_fresh by (apply Hfresh; now left).
      rewrite map_app. intros Hin. apply in_app_or in Hin as [Hin|[<-|[]]].
      * apply (Hfresh cid); [now right | exact Hin].
      * exact (Hnew Hcid).
Qed.

Lemma numbered_document_id infix document_id chunks :
  numbered infix document_id chunks ->
  List.Forall (fun chunk => DocumentChunk.document_id chunk = document_id) chunks.
Proof.
  intros Hnum. apply List.Forall_forall. intros chunk Hin.
  apply list_elem_of_In, list_elem_of_lookup in Hin as [i Hi].
  exact (proj2 (Hnum i chunk Hi)).
Qed.

Lemma ingest_chunks_document_id (self : SmartChunker.t) doc_id clock content :
  List.Forall (fun chunk => DocumentChunk.document_id chunk = doc_id)
    (if RAGEngine._is_code content
     then SmartChunker.chunk_code self doc_id clock content
     else SmartChunker.chunk_text self doc_id clock content).
Proof.
  destruct (RAGEngine._is_code content).
  - exact (numbered_document_id _ _ _ (proj2 (chunk_code_ok self doc_id clock content))).
  - exact (numbered_document_id _ _ _
             (chunk_sentences_numbered self doc_id clock (sent_tokenize content))).
Qed.

Lemma filter_document_id_all doc_id chunks :
  List.Forall (fun chunk => DocumentChunk.document_id chunk = doc_id) chunks ->
  List.filter (fun chunk => String.eqb (DocumentChunk.document_id chunk) doc_id) chunks
  = chunks.
Proof.
  induction 1 as [|chunk chunks Hhd Htl IH]; simpl; [reflexivity |].
  rewrite Hhd, String.eqb_refl, IH. reflexivity.
Qed.

Lemma filter_document_id_none doc_id (d : list (string * DocumentChunk.t)) :
  (forall key chunk, In (key, chunk) d -> DocumentChunk.document_id chunk <> doc_id) ->
  List.filter (fun chunk => String.eqb (DocumentChunk.document_id chunk) doc_id)
    (map snd d)
  = [].
Proof.
  induction d as [|[key chunk] d IH]; intros Hother; simpl; [reflexivity |].
  destruct (String.eqb_spec (DocumentChunk.document_id chunk) doc_id) as [Heq|_].
  - exfalso. apply (Hother key chunk); [now left | exact Heq].
  - apply IH. intros key' chunk' Hin. apply (Hother key' chunk'). now right.
Qed.

End SummaryFacts.

(** X25. Without an embedding model, when no stored chunk belongs to the
    document id and no stored key is the id of a new chunk (a fresh engine
    in particular), after a successful [ingest_document] the summary of the
    document counts exactly the chunks the chunker produced, previews the
    first hundred characters of the first of them followed by "...", and
    reports that chunk's creation time; with no chunk the preview is empty
    and the time is [None]. *)
Theorem summary_counts_ingested_chunks `{SentenceTokenizer} `{VectorIndex}
    (cfg : Config) (self engine : RAGEngine.t) (disk disk' : USearchIndex.files)
    (content : string) (doc_id : option string)
    (metadata : option (gmap string value)) (clock : nat -> Z) (id : string) :
  let chunks :=
    if RAGEngine._is_code content
    then SmartChunker.chunk_code (RAGEngine.chunker self) id clock content
    else SmartChunker.chunk_text (RAGEngine.chunker self) id clock content in
  BGEEncoder.model (RAGEngine.encoder self) = None ->
  (forall key chunk,
     In (key, chunk) (USearchIndex.document_chunks (RAGEngine.vector_index self)) ->
     DocumentChunk.document_id chunk <> id
     /\ ~ In key (map DocumentChunk.id chunks)) ->
  RAGEngine.ingest_document cfg self disk content doc_id metadata clock
  = (Ok id, (engine, disk')) ->
  RAGEngine.get_document_summary engine id
  = Some (RAGEngine.mk_summary id
            (Z.of_nat (String.length content))
            (Z.of_nat (List.length chunks))
            match chunks with
            | first :: _ => Str.take 100 (DocumentChunk.content first) +:+ "..."
            | [] => EmptyString
            end
            match chunks with
            | first :: _ => Some (DocumentChunk.created_at first)
            | [] => None
            end).
Proof.
  cbv zeta. intros Hmodel Hstored Hingest.
  unfold RAGEngine.ingest_document in Hingest.
  fold (resolved_doc_id content doc_id) in Hingest.
  cbn [RAGEngine.chunker RAGEngine.encoder RAGEngine.vector_index
       RAGEngine.context_manager RAGEngine.documents] in Hingest.
  unfold BGEEncoder.encode in Hingest. rewrite Hmodel, fallback_encode_map in Hingest.
  remember (if RAGEngine._is_code content
            then SmartChunker.chunk_code (RAGEngine.chunker self)
                   (resolved_doc_id content doc_id) clock content
            else SmartChunker.chunk_text (RAGEngine.chunker self)
                   (resolved_doc_id content doc_id) clock content) as chunks eqn:Hchunks.
  destruct (RAGEngine.add_chunks (RAGEngine.vector_index self) disk
              (combine chunks (map (filled_vector cfg) (map DocumentChunk.content chunks))))
    as [outcome [index1 disk1]] eqn:Hadd.
  destruct outcome as [[]|e]; [|discriminate].
  injection Hingest as <- <- <-. rewrite <- Hchunks.
  apply add_chunks_appends in Hadd.
  - unfold RAGEngine.get_document_summary.
    cbn [RAGEngine.documents RAGEngine.vector_index]. rewrite lookup_insert_eq.
    rewrite Hadd, map_app, List.filter_app, filter_document_id_none
      by (intros key chunk Hin; exact (proj1 (Hstored key chunk Hin))).
    rewrite (map_map _ snd). cbn [snd app].
    change (fun x : DocumentChunk.t * list Z => fst x) with (@fst DocumentChunk.t (list Z)).
    rewrite combine_fallback_fst, filter_document_id_all; [reflexivity |].
    subst chunks. apply ingest_chunks_document_id.
  - rewrite <- (map_map fst DocumentChunk.id), combine_fallback_fst. subst chunks.
    apply ingest_chunks_NoDup.
  - rewrite <- (map_map fst DocumentChunk.id), combine_fallback_fst.
    intros cid Hcid Hin. apply in_map_iff in Hin as [[key chunk] [<- Hin]].
    rewrite Hchunks in Hcid. exact (proj2 (Hstored key chunk Hin) Hcid).
Qed.

Lemma summary_counts_ingested_chunks_witness :
  let chunks :=
    if RAGEngine._is_code rust_text
    then SmartChunker.chunk_code (RAGEngine.chunker eng1) "doc2" clock0 rust_text
    else SmartChunker.chunk_text (RAGEngine.chunker eng1) "doc2" clock0 rust_text in
  RAGEngine.get_document_summary eng2 "doc2"
  = Some (RAGEngine.mk_summary "doc2"
            (Z.of_nat (String.length rust_text))
            (Z.of_nat (List.length chunks))
            match chunks with
            | first :: _ => Str.take 100 (DocumentChunk.content first) +:+ "..."
            | [] => EmptyString
            end
            match chunks with
            | first :: _ => Some (DocumentChunk.created_at first)
            | [] => None
            end).
Proof.
  apply (summary_counts_ingested_chunks default_config eng1 eng2
           (USearchIndex.save (RAGEngine.vector_index eng1) disk0)
           (USearchIndex.save (RAGEngine.vector_index eng2) disk0)
           rust_text (Some "doc2") None clock0 "doc2").
  - reflexivity.
  - intros key chunk Hin. vm_compute in Hin. destruct Hin as [Heq|[]].
    injection Heq as <- <-. split; [discriminate |].
    vm_compute. intros [Heq|[]]. discriminate.
  - vm_compute. reflexivity.
Defined.

Example summary_of_second_document :
  RAGEngine.get_document_summary eng2 "doc2"
  = Some (RAGEngine.mk_summary "doc2" 56 1 (rust_text +:+ "...") (Some 0)).
Proof. vm_compute. reflexivity. Qed.

(** ** SmartChunker.chunk_code: no line that is not blank is lost *)

Lemma lstrip_head (s : string) c r : Str.lstrip s = String c r -> Str.isspace c = false.
Proof.
  induction s as [|c' s IH]; simpl; [discriminate |].
  destruct (Str.isspace c') eqn:Hspace; [exact IH |].
  intros Heq. injection Heq as <- _. exact Hspace.
Qed.

Lemma strip_empty (s : string) : Str.strip s = EmptyString <-> Str.lstrip s = EmptyString.
Proof.
  unfold Str.strip. split; [|intros ->; reflexivity].
  destruct (Str.lstrip s) as [|c r] eqn:Hl; [reflexivity |].
  apply lstrip_head in Hl. simpl. rewrite Hl.
  destruct (Str.rstrip r); discriminate.
Qed.

Lemma lstrip_app_empty (a b : string) :
  Str.lstrip (a +:+ b) = EmptyString ->
  Str.lstrip a = EmptyString /\ Str.lstrip b = EmptyString.
Proof.
  rewrite lstrip_app. destruct (Str.lstrip a); [tauto | discriminate].
Qed.

Lemma join_lines_blank (lines : list string) :
  Str.lstrip (Str.join LF lines) = EmptyString ->
  List.Forall (fun line => Str.lstrip line = EmptyString) lines.
Proof.
  induction lines as [|p lines IH]; [constructor |].
  destruct lines as [|q lines]; [intros Hp; constructor; [exact Hp | constructor] |].
  change (Str.join LF (p :: q :: lines)) with (p +:+ LF +:+ Str.join LF (q :: lines)).
  intros Hblank. apply lstrip_app_empty in Hblank as [Hp Hrest].
  constructor; [exact Hp | apply IH, Hrest].
Qed.

Section ChunkCodeCoverage.
Variable self : SmartChunker.t.
Variable document_id : string.
Variable clock : nat -> Z.
Variable code : string.

Lemma emit_code_chunk_keeps (P : DocumentChunk.t -> Prop) chunks current_chunk a b :
  List.Exists P chunks ->
  List.Exists P
    (SmartChunker.emit_code_chunk document_id clock code chunks current_chunk a b).
Proof.
  intros Hex. unfold SmartChunker.emit_code_chunk.
  destruct (_ <? _)%nat; [apply List.Exists_app; now left | exact Hex].
Qed.

Lemma emit_code_chunk_holds chunks (a b i : nat) line :
  (a <= i <= b)%nat ->
  Str.split_lines code !! i = Some line ->
  Str.strip line <> EmptyString ->
  List.Exists (holds_line code i)
    (SmartChunker.emit_code_chunk document_id clock code chunks
       (take (b + 1 - a) (drop a (Str.split_lines code))) (Z.of_nat a) (Z.of_nat b)).
Proof.
  intros Hrange Hline Hnonblank. unfold SmartChunker.emit_code_chunk.
  destruct (Nat.ltb_spec 0
              (String.length
                 (Str.strip (Str.join LF (take (b + 1 - a) (drop a (Str.split_lines code)))))))
    as [_|Hblank].
  - apply List.Exists_app. right. constructor. exists a, b.
    split; [exact Hrange |].
    cbn [SmartChunker.code_chunk DocumentChunk.metadata DocumentChunk.content].
    split; [now rewrite lookup_insert_eq |].
    split; [rewrite lookup_insert_ne by discriminate; now rewrite lookup_insert_eq |].
    reflexivity.
  - exfalso. apply Hnonblank, strip_empty.
    assert (Str.strip (Str.join LF (take (b + 1 - a) (drop a (Str.split_lines code))))
            = EmptyString) as Hempty
      by (destruct (Str.strip (Str.join _ _)); [reflexivity | simpl in Hblank; lia]).
    apply strip_empty, join_lines_blank in Hempty.
    rewrite List.Forall_forall in Hempty. apply Hempty.
    apply list_elem_of_In, list_elem_of_lookup. exists (i - a)%nat.
    rewrite lookup_take_lt by lia. rewrite lookup_drop.
    replace (a + (i - a))%nat with i by lia. exact Hline.
Qed.

Lemma chunk_code_step_coverage k line st :
  Str.split_lines code !! k = Some line ->
  code_progress code document_id k st ->
  code_coverage code k st ->
  code_coverage code (S k)
    (SmartChunker.chunk_code_step self document_id clock code
       (Str.split_lines code) st (k, line)).
Proof.
  intros Hline. destruct st as [[chunks current_chunk] chunk_start_line].
  intros (a & -> & Hak & -> & _ & _) Hcover.
  unfold SmartChunker.chunk_code_step.
  destruct (SmartChunker.is_new_unit line
            && (0 <? List.length (take (k - a) (drop a (Str.split_lines code))))%nat)
    eqn:Hunit.
  - apply andb_prop in Hunit as [_ Hlen]. apply Nat.ltb_lt in Hlen.
    rewrite length_take in Hlen.
    assert (forall i l, (i < S k)%nat -> Str.split_lines code !! i = Some l ->
              Str.strip l <> EmptyString ->
              (k <= i)%nat
              \/ List.Exists (holds_line code i)
                   (SmartChunker.emit_code_chunk document_id clock code chunks
                      (take (k - a) (drop a (Str.split_lines code)))
                      (Z.of_nat a) (Z.of_nat k - 1))) as Hemit.
    { intros i l Hi Hl Hnonblank.
      destruct (Nat.lt_ge_cases i k) as [Hik|Hik]; [right | now left].
      destruct (Hcover i l Hik Hl Hnonblank) as [Hbuffer|Hchunk].
      - replace (k - a)%nat with (k - 1 + 1 - a)%nat by lia.
        replace (Z.of_nat k - 1) with (Z.of_nat (k - 1)) by lia.
        apply (emit_code_chunk_holds chunks a (k - 1) i l); [lia | assumption..].
      - now apply emit_code_chunk_keeps. }
    destruct (Z.ltb_spec 0 (SmartChunker.overlap self)) as [Hoverlap|Hoverlap];
      intros i l Hi Hl Hnonblank;
      (destruct (Hemit i l Hi Hl Hnonblank) as [Hki|Hchunk]; [left; lia | now right]).
  - intros i l Hi Hl Hnonblank.
    destruct (Nat.lt_ge_cases i k) as [Hik|Hik]; [|left; lia].
    exact (Hcover i l Hik Hl Hnonblank).
Qed.

Lemma chunk_code_fold_coverage rest : forall done st,
  Str.split_lines code = done ++ rest ->
  code_progress code document_id (List.length done) st ->
  code_coverage code (List.length done) st ->
  code_coverage code (List.length (Str.split_lines code))
    (fold_left
       (SmartChunker.chunk_code_step self document_id clock code (Str.split_lines code))
       (combine (seq (List.length done) (List.length rest)) rest) st).
Proof.
  induction rest as [|line rest IH]; intros done st Hsplit Hst Hcover; simpl.
  - rewrite Hsplit, app_nil_r. exact Hcover.
  - assert (Str.split_lines code = (done ++ [line]) ++ rest) as Hsplit'
      by (rewrite <- app_assoc; exact Hsplit).
    assert (Str.split_lines code !! List.length done = Some line) as Hline
      by (rewrite Hsplit; apply list_lookup_middle; reflexivity).
    specialize (IH (done ++ [line])
                  (SmartChunker.chunk_code_step self document_id clock code
                     (Str.split_lines code) st (List.length done, line)) Hsplit').
    rewrite length_app, Nat.add_1_r in IH. apply IH.
    + now apply chunk_code_step_progress.
    + now apply chunk_code_step_coverage.
Qed.

Lemma chunk_code_coverage i line :
  Str.split_lines code !! i = Some line ->
  Str.strip line <> EmptyString ->
  List.Exists (holds_line code i) (SmartChunker.chunk_code self document_id clock code).
Proof.
  intros Hline Hnonblank. pose proof (lookup_lt_Some _ _ _ Hline) as Hi.
  unfold SmartChunker.chunk_code.
  assert (code_progress code document_id 0 ([], [], 0)) as Hstart.
  { exists 0%nat. split; [reflexivity |]. split; [lia |].
    split; [reflexivity |]. split; [constructor | apply numbered_nil]. }
  pose proof (chunk_code_fold_progress self document_id clock code
                (Str.split_lines code) [] ([], [], 0) eq_refl Hstart) as Hst.
  pose proof (chunk_code_fold_coverage (Str.split_lines code) [] ([], [], 0)
                eq_refl Hstart) as Hcover.
  cbn [List.length] in Hst, Hcover.
  destruct (fold_left _ _ _) as [[chunks current_chunk] chunk_start_line].
  destruct Hst as (a & -> & Han & -> & _ & _).
  specialize (Hcover ltac:(intros ? ? ?; lia) i line Hi Hline Hnonblank).
  destruct (take _ _) as [|l0 ls] eqn:Hcurrent.
  - destruct Hcover as [Hbuffer|Hchunk]; [|exact Hchunk].
    apply (f_equal (@List.length _)) in Hcurrent. rewrite length_take in Hcurrent.
    rewrite length_drop in Hcurrent. simpl in Hcurrent. lia.
  - rewrite <- Hcurrent. destruct Hcover as [Hbuffer|Hchunk];
      [|now apply emit_code_chunk_keeps].
    replace (List.length (Str.split_lines code) - a)%nat
      with (List.length (Str.split_lines code) - 1 + 1 - a)%nat by lia.
    replace (Z.of_nat (List.length (Str.split_lines code)) - 1)
      with (Z.of_nat (List.length (Str.split_lines code) - 1)) by lia.
    apply (emit_code_chunk_holds chunks a _ i line); [lia | assumption..].
Qed.

End ChunkCodeCoverage.

(** X26. No line of the code that is not blank is lost by [chunk_code]:
    line [i] of [code.split('\n')], when it has a character other than
    white space, lies in the recorded range [start_line..end_line] of some
    chunk, whose content is that range of lines. *)
Theorem chunk_code_covers_lines (self : SmartChunker.t) (document_id : string)
    (clock : nat -> Z) (code : string) (i : nat) (line : string) :
  Str.split_lines code !! i = Some line ->
  Str.strip line <> EmptyString ->
  List.Exists (holds_line code i) (SmartChunker.chunk_code self document_id clock code).
Proof. apply chunk_code_coverage. Qed.

Lemma chunk_code_covers_lines_witness :
  List.Exists (holds_line sample_code 3)
    (SmartChunker.chunk_code (SmartChunker.mk 512 0) "d" clock0 sample_code).
Proof.
  apply (chunk_code_covers_lines (SmartChunker.mk 512 0) "d" clock0 sample_code 3
           "  return x").
  - reflexivity.
  - discriminate.
Defined.

(** ** RAGEngine.ingest_document: stored chunks are never removed *)

Section IngestKeeps.
Context `{SentenceTokenizer} `{VectorIndex}.

Lemma dict_set_keys_extend {V} (k : string) (v : V) d :
  exists new, map fst (dict_set k v d) = map fst d ++ new.
Proof.
  destruct (in_dec string_dec k (map fst d)) as [Hin|Hnot].
  - exists []. now rewrite dict_set_present, app_nil_r.
  - exists [k]. now rewrite dict_set_fresh, map_app.
Qed.

Lemma add_chunks_keys_extend pairs : forall index disk,
  exists new,
    map fst (USearchIndex.document_chunks
               (fst (snd (RAGEngine.add_chunks index disk pairs))))
    = map fst (USearchIndex.document_chunks index) ++ new.
Proof.
  induction pairs as [|[chunk embedding] rest IH]; intros index disk; simpl.
  - exists []. now rewrite app_nil_r.
  - unfold USearchIndex.add_chunk.
    destruct (USearchIndex.index_key (DocumentChunk.id chunk));
      [|exists []; simpl; now rewrite app_nil_r].
    destruct (Index_add _ _ _) as [index1|];
      [|exists []; simpl; now rewrite app_nil_r].
    match goal with
    | |- context [RAGEngine.add_chunks ?index' ?disk' rest] =>
        destruct (IH index' disk') as [new Hnew]
    end.
    rewrite Hnew. cbn [USearchIndex.document_chunks].
    destruct (dict_set_keys_extend (DocumentChunk.id chunk) chunk
                (USearchIndex.document_chunks index)) as [new0 ->].
    exists (new0 ++ new). now rewrite app_assoc.
Qed.

End IngestKeeps.

(** X27. [ingest_document] never removes or reorders what is stored: however
    the call ends, the keys of [document_chunks] before the call are an
    initial segment of the keys after it.  A chunk id stored once stays
    stored: ingesting a document again under the same id does not drop the
    ids of the earlier text that the new text does not produce. *)
Theorem ingest_document_keeps_chunk_ids `{SentenceTokenizer} `{VectorIndex}
    (cfg : Config) (self : RAGEngine.t) (disk : USearchIndex.files)
    (content : string) (doc_id : option string)
    (metadata : option (gmap string value)) (clock : nat -> Z) :
  exists new,
    map fst (USearchIndex.document_chunks
               (RAGEngine.vector_index
                  (fst (snd (RAGEngine.ingest_document cfg self disk content doc_id
                               metadata clock)))))
    = map fst (USearchIndex.document_chunks (RAGEngine.vector_index self)) ++ new.
Proof.
  unfold RAGEngine.ingest_document.
  cbn [RAGEngine.chunker RAGEngine.encoder RAGEngine.vector_index
       RAGEngine.context_manager RAGEngine.documents].
  destruct (BGEEncoder.encode _ _ _) as [embeddings|e];
    [|exists []; simpl; now rewrite app_nil_r].
  match goal with
  | |- context [RAGEngine.add_chunks ?index ?disk' ?pairs] =>
      destruct (add_chunks_keys_extend pairs index disk') as [new Hnew];
      destruct (RAGEngine.add_chunks index disk' pairs) as [outcome [index' disk1]]
  end.
  exists new. exact Hnew.
Qed.
